(** * Workflow engine of [app.py]: extraction, endpoint selection, orchestration

    A shallow embedding of the decision logic of [app.py]:
    [WorkflowService.find_numbers], [WorkflowService.select_next_api],
    [ApiManager.fetch_data], the three notification sinks,
    [WorkflowService.recursive_workflow] and the dashboard read.

    Modelling conventions.
    - A decoded JSON payload is the inductive type [json]; a Python [dict]
      is an association list in insertion order, which is the order
      [dict.values()] iterates in.
    - Python [int] is [Z].  Python [float] is an IEEE 754 double
      ([pyfloat]): a finite value, given as the rational it denotes, an
      infinity or NaN.  Arithmetic on floats rounds to the nearest double,
      ties to even ([to_double]); an [int] too large for a double raises
      [OverflowError] where Python converts it.  [sum] adds from left to
      right, as CPython does up to version 3.11.  The sign of a zero is
      not kept.
    - Python [bool] is a subclass of [int], so [isinstance(True, (int, float))]
      holds; the type [num] of values that pass this test has a constructor
      for booleans.
    - Exceptions are an explicit result ([outcome]); the classes that the
      handlers of [app.py] tell apart are kept apart in [exn].
    - The network, the mail server, the webhook and the spreadsheet are
      oracles indexed by a logical clock that ticks at every interaction;
      [time.sleep] lets the clock tick when its argument is accepted.
    - The limits of the interpreter (recursion depth, memory, the length
      of an [int] that [str] accepts) are outside the model. *)

From Stdlib Require Import ZArith QArith Qround Qpower Qreduction.
From Stdlib Require Import List String Bool Lia Lqa Sorted.
From Stdlib Require Import Permutation.
Import ListNotations.

Local Open Scope string_scope.
Local Open Scope list_scope.
Local Open Scope Z_scope.

Set Implicit Arguments.

(** ** Python values *)

(** A [float]: a finite double, written as the rational it denotes, or
    one of the three special values.  The type has room for every rational;
    the doubles among them are the values of [to_double] below. *)
Inductive pyfloat : Type :=
| Fin (q : Q)
| PosInf
| NegInf
| NaN.

#[warnings="-register-all"]
Inductive json : Type :=
| JNull
| JBool (b : bool)
| JInt (z : Z)
| JFloat (f : pyfloat)
| JStr (s : string)
| JList (items : list json)
| JDict (entries : list (string * json)).

(** Objects [obj] with [isinstance(obj, (int, float))]. *)
Inductive num : Type :=
| NBool (b : bool)
| NInt (z : Z)
| NFloat (f : pyfloat).

Definition is_bool (n : num) : bool :=
  match n with NBool _ => true | _ => false end.

(** Instances of [int], [bool] among them. *)
Definition is_int (n : num) : bool :=
  match n with NFloat _ => false | _ => true end.

(** The integer an [int] or a [bool] stands for: [True] is 1 and [False]
    is 0. *)
Definition int_val (n : num) : Z :=
  match n with
  | NBool b => Z.b2z b
  | NInt z => z
  | NFloat _ => 0
  end.

(** The place of a number on the extended line.  Python orders an [int]
    and a [float] by their exact values, so an [int] is not rounded here. *)
Definition num_val (n : num) : pyfloat :=
  match n with
  | NFloat f => f
  | _ => Fin (inject_Z (int_val n))
  end.

(** A field of a dashboard row: a number or a string such as ["N/A"]. *)
Inductive cell : Type :=
| CNum (n : num)
| CStr (s : string).

(** ** Exceptions *)

Inductive exn : Type :=
| RequestException      (* requests.exceptions.RequestException and subclasses *)
| ZeroDivisionError
| IndexError
| ValueError
| TypeError
| OverflowError
| OtherException.       (* any other subclass of Exception *)

Inductive outcome (A : Type) : Type :=
| Ok (a : A)
| Raise (e : exn).

Arguments Ok {A} a.
Arguments Raise {A} e.

(** [except requests.exceptions.RequestException] *)
Definition is_RequestException (e : exn) : bool :=
  match e with RequestException => true | _ => false end.

(** [except Exception] *)
Definition is_Exception (e : exn) : bool := true.

Definition obind {A B : Type} (o : outcome A) (k : A -> outcome B) : outcome B :=
  match o with
  | Ok a => k a
  | Raise e => Raise e
  end.

(** ** Floating point *)

Definition Qltb (x y : Q) : bool := negb (Qle_bool y x).

(** Nearest integer, ties to the even one. *)
Definition round_half_even (x : Q) : Z :=
  let f := Qfloor x in
  match Qcompare (x - inject_Z f) (1 # 2) with
  | Lt => f
  | Gt => f + 1
  | Eq => if Z.even f then f else f + 1
  end.

(** For [0 < x]: the exponent [e] with [2 ^ e <= x < 2 ^ (e + 1)]. *)
Definition binade (x : Q) : Z :=
  if Qle_bool 1 x then Z.log2 (Qfloor x) else - Z.log2_up (Qceiling (/ x)).

(** The exponent of the double next to [x]: below [2 ^ -1022] doubles are
    subnormal and keep that exponent. *)
Definition expo (x : Q) : Z := Z.max (binade x) (-1022).

(** The spacing of the doubles around [x]: 53 significant bits. *)
Definition quantum (x : Q) : Q := (2 ^ (expo x - 52))%Q.

Definition round_pos (x : Q) : Q :=
  (inject_Z (round_half_even (x / quantum x)) * quantum x)%Q.

(** Round to nearest, ties to even, with unbounded exponent. *)
Definition round_nearest (x : Q) : Q :=
  match Qcompare x 0 with
  | Eq => 0%Q
  | Gt => round_pos x
  | Lt => (- round_pos (- x))%Q
  end.

(** The double nearest to [x]; what rounds to [2 ^ 1024] or beyond
    overflows. *)
Definition to_double (x : Q) : pyfloat :=
  let r := round_nearest x in
  if Qle_bool (2 ^ 1024) r then PosInf
  else if Qle_bool r (- 2 ^ 1024) then NegInf
  else Fin (Qred r).

(** [a < b] and [a <= b]; every comparison with NaN is false. *)
Definition float_lt (a b : pyfloat) : bool :=
  match a, b with
  | NaN, _ | _, NaN => false
  | _, NegInf | PosInf, _ => false
  | NegInf, _ | _, PosInf => true
  | Fin x, Fin y => Qltb x y
  end.

Definition float_le (a b : pyfloat) : bool :=
  match a, b with
  | NaN, _ | _, NaN => false
  | NegInf, _ | _, PosInf => true
  | _, NegInf | PosInf, _ => false
  | Fin x, Fin y => Qle_bool x y
  end.

(** The conversion of an [int] operand that meets a [float]:
    "int too large to convert to float". *)
Definition float_of_int (z : Z) : outcome pyfloat :=
  match to_double (inject_Z z) with
  | Fin q => Ok (Fin q)
  | _ => Raise OverflowError
  end.

(** [a + b] on floats: overflow gives an infinity. *)
Definition float_add (a b : pyfloat) : pyfloat :=
  match a, b with
  | NaN, _ | _, NaN => NaN
  | PosInf, NegInf | NegInf, PosInf => NaN
  | PosInf, _ | _, PosInf => PosInf
  | NegInf, _ | _, NegInf => NegInf
  | Fin x, Fin y => to_double (x + y)
  end.

(** [a / b] on floats: a zero divisor is tested for first; overflow gives
    an infinity. *)
Definition float_div (a b : pyfloat) : outcome pyfloat :=
  match b with
  | Fin y =>
      if Qeq_bool y 0 then Raise ZeroDivisionError
      else match a with
           | Fin x => Ok (to_double (x / y))
           | PosInf => Ok (if Qltb 0 y then PosInf else NegInf)
           | NegInf => Ok (if Qltb 0 y then NegInf else PosInf)
           | NaN => Ok NaN
           end
  | NaN => Ok NaN
  | PosInf | NegInf =>
      match a with
      | Fin _ => Ok (Fin 0)
      | _ => Ok NaN
      end
  end.

(** ** Arithmetic and sequence primitives of Python *)

(** [a + b]: exact on [int] and [bool]; an [int] that meets a [float] is
    converted first. *)
Definition py_add (a b : num) : outcome num :=
  match a, b with
  | NFloat x, NFloat y => Ok (NFloat (float_add x y))
  | NFloat x, _ =>
      obind (float_of_int (int_val b)) (fun y => Ok (NFloat (float_add x y)))
  | _, NFloat y =>
      obind (float_of_int (int_val a)) (fun x => Ok (NFloat (float_add x y)))
  | _, _ => Ok (NInt (int_val a + int_val b))
  end.

Fixpoint sum_from (acc : num) (numbers : list num) : outcome num :=
  match numbers with
  | [] => Ok acc
  | x :: rest => obind (py_add acc x) (fun acc' => sum_from acc' rest)
  end.

(** [sum(numbers)]: left to right from the [int] 0. *)
Definition py_sum (numbers : list num) : outcome num :=
  sum_from (NInt 0) numbers.

Definition py_len {A : Type} (l : list A) : Z := Z.of_nat (List.length l).

(** [a / b] with an [int] divisor.  On two ints the quotient is rounded
    once, and "integer division result too large for a float" is an
    [OverflowError]. *)
Definition py_truediv (a : num) (b : Z) : outcome pyfloat :=
  match a with
  | NFloat x => obind (float_of_int b) (fun y => float_div x y)
  | _ =>
      if b =? 0 then Raise ZeroDivisionError
      else match to_double (inject_Z (int_val a) / inject_Z b) with
           | Fin q => Ok (Fin q)
           | _ => Raise OverflowError
           end
  end.

(** [sum(numbers)/len(numbers)], the expression of lines 128 and 154. *)
Definition average (numbers : list num) : outcome pyfloat :=
  obind (py_sum numbers) (fun s => py_truediv s (py_len numbers)).

(** [l[i]] for [i >= 0]. *)
Definition py_index {A : Type} (l : list A) (i : nat) : outcome A :=
  match nth_error l i with
  | Some x => Ok x
  | None => Raise IndexError
  end.

(** [a < b] and [a <= b] on numbers. *)
Definition py_lt (a b : num) : bool := float_lt (num_val a) (num_val b).

Definition py_le (a b : num) : bool := float_le (num_val a) (num_val b).

(** [max(l)]: the first item that no later item is greater than. *)
Definition py_max (l : list num) : outcome num :=
  match l with
  | [] => Raise ValueError
  | x :: rest => Ok (fold_left (fun m y => if py_lt m y then y else m) rest x)
  end.

(** [min(l)]: the first item that no later item is less than. *)
Definition py_min (l : list num) : outcome num :=
  match l with
  | [] => Raise ValueError
  | x :: rest => Ok (fold_left (fun m y => if py_lt y m then y else m) rest x)
  end.

(** [round(x, 2)]: the double nearest to the hundredth nearest to [x],
    ties between hundredths to the even one; an infinity or NaN is
    returned as it is. *)
Definition py_round2 (x : pyfloat) : pyfloat :=
  match x with
  | Fin q => to_double (inject_Z (round_half_even (q * 100)) / 100)
  | _ => x
  end.

(** [value >= threshold]; ordering a [str] against an [int] is a [TypeError]. *)
Definition py_ge (value : cell) (threshold : Z) : outcome bool :=
  match value with
  | CNum n => Ok (py_le (NInt threshold) n)
  | CStr _ => Raise TypeError
  end.

(** [value != "N/A"] *)
Definition py_ne_str (value : cell) (s : string) : bool :=
  match value with
  | CNum _ => true
  | CStr s' => negb (String.eqb s' s)
  end.

(** [data is None]: the [None] of Python is also what JSON [null] decodes to. *)
Definition is_None (data : json) : bool :=
  match data with JNull => true | _ => false end.

(** ** Configuration *)

Record Config : Type := {
  MAX_DEPTH : Z;
  INTERVAL : Z;
  ALERT_THRESHOLD : Z
}.

(** ** [WorkflowService.find_numbers] *)

Fixpoint find_numbers (obj : json) : list num :=
  match obj with
  | JDict entries =>
      fold_left (fun results kv => results ++ find_numbers (snd kv)) entries []
  | JList items =>
      fold_left (fun results item => results ++ find_numbers item) items []
  | JBool b => [NBool b]
  | JInt z => [NInt z]
  | JFloat f => [NFloat f]
  | JNull | JStr _ => []
  end.

(** The extraction as the specification words it: numeric scalars other
    than booleans, mapping values then sequence elements in order. *)
Fixpoint numeric_leaves (v : json) : list num :=
  match v with
  | JDict entries => flat_map (fun kv => numeric_leaves (snd kv)) entries
  | JList items => flat_map numeric_leaves items
  | JInt z => [NInt z]
  | JFloat f => [NFloat f]
  | JNull | JBool _ | JStr _ => []
  end.

(** Every leaf that passes [isinstance(obj, (int, float))], booleans too. *)
Fixpoint int_or_float_leaves (v : json) : list num :=
  match v with
  | JDict entries => flat_map (fun kv => int_or_float_leaves (snd kv)) entries
  | JList items => flat_map int_or_float_leaves items
  | JBool b => [NBool b]
  | JInt z => [NInt z]
  | JFloat f => [NFloat f]
  | JNull | JStr _ => []
  end.

(** No boolean anywhere in the payload. *)
Fixpoint bool_free (v : json) : bool :=
  match v with
  | JDict entries => forallb (fun kv => bool_free (snd kv)) entries
  | JList items => forallb bool_free items
  | JBool _ => false
  | _ => true
  end.

(** ** [WorkflowService.select_next_api] *)

Definition ENDPOINT_A : string := "https://api.publicapis.org/entries".
Definition ENDPOINT_B : string :=
  "https://api.coingecko.com/api/v3/simple/price?ids=bitcoin&vs_currencies=usd".
Definition ENDPOINT_C : string := "https://api.exchangerate.host/latest".

Definition is_empty {A : Type} (l : list A) : bool :=
  match l with [] => true | _ => false end.

Definition select_next_api (config : Config) (numbers : list num) (depth : Z)
  : outcome (option string) :=
  if (MAX_DEPTH config <=? depth) || is_empty numbers then Ok None
  else
    obind (average numbers) (fun avg_value =>
    if float_lt avg_value (Fin 50) then Ok (Some ENDPOINT_A)
    else if float_lt avg_value (Fin 100) then Ok (Some ENDPOINT_B)
    else Ok (Some ENDPOINT_C)).

(** The rational a finite sample denotes (0 for an infinity or NaN, which
    denote none). *)
Definition rational (n : num) : Q :=
  match num_val n with
  | Fin q => q
  | _ => 0%Q
  end.

(** The three bands of lines 129 to 134. *)
Definition endpoint_of (avg_value : pyfloat) : string :=
  if float_lt avg_value (Fin 50) then ENDPOINT_A
  else if float_lt avg_value (Fin 100) then ENDPOINT_B
  else ENDPOINT_C.

(** The mean as the specification words it. *)
Definition total (samples : list num) : Q :=
  fold_right (fun x acc => (rational x + acc)%Q) 0%Q samples.

Definition mean (samples : list num) : Q :=
  (total samples / inject_Z (Z.of_nat (List.length samples)))%Q.

(** ** Process state and collaborators *)

Record WorkflowRecord : Type := {
  timestamp : nat;
  api : string;
  value : cell;
  status : string;
  max_value : cell;
  min_value : cell;
  avg_value : cell
}.

Inductive level : Type := INFO | WARNING | ERROR.

(** What a run does, in order: its calls to the collaborators and to the
    logger.  [EvEnter] and [EvSelect] have no counterpart in the code; they
    record the calls of [recursive_workflow] and of [select_next_api], so
    that statements can speak of them. *)
Inductive event : Type :=
| EvEnter (depth : Z)                        (* recursive_workflow is entered *)
| EvGet (api_url : string)                   (* session.get *)
| EvSmtp (value : cell)                      (* the SMTP dialogue of send_email *)
| EvPost (value : cell)                      (* session.post to the webhook *)
| EvAppendRow (value : cell) (now : nat)     (* gs_sheet.append_row([value, now]) *)
| EvSelect (numbers : list num) (depth : Z)  (* select_next_api is called *)
| EvLog (lvl : level).                       (* logging.info / warning / error *)

(** The module-level list [dashboard_data], the observation trace and the
    logical clock. *)
Record World : Type := {
  dashboard_data : list WorkflowRecord;
  trace : list event;
  clock : nat
}.

(** What [session.get] hands back: whether the status passes
    [raise_for_status], and what [response.json()] does. *)
Record Response : Type := {
  status_ok : bool;
  json_body : outcome json
}.

(** The collaborators, as oracles of the clock. *)
Record Environment : Type := {
  session_get : nat -> string -> outcome Response;
  smtp_send : nat -> cell -> outcome unit;
  session_post : nat -> cell -> outcome unit;
  append_row : nat -> cell -> outcome unit
}.

(** ** State and exception monad *)

Definition M (A : Type) : Type := World -> outcome A * World.

Definition ret {A : Type} (a : A) : M A := fun w => (Ok a, w).

Definition bind {A B : Type} (m : M A) (k : A -> M B) : M B :=
  fun w =>
    match m w with
    | (Ok a, w') => k a w'
    | (Raise e, w') => (Raise e, w')
    end.

Declare Scope workflow_scope.
Delimit Scope workflow_scope with wf.
Notation "x <- m ;; k" := (bind m (fun x => k))
  (at level 61, m at next level, right associativity) : workflow_scope.
Notation "m ;; k" := (bind m (fun _ => k))
  (at level 61, right associativity) : workflow_scope.
Local Open Scope workflow_scope.

Definition lift {A : Type} (o : outcome A) : M A := fun w => (o, w).

(** [try: body except <class>: handler]; what [body] did before it raised
    stays done. *)
Definition try_except {A : Type} (body : M A) (catches : exn -> bool)
  (handler : exn -> M A) : M A :=
  fun w =>
    match body w with
    | (Raise e, w') => if catches e then handler e w' else (Raise e, w')
    | r => r
    end.

Definition emit (e : event) : M unit :=
  fun w => (Ok tt, {| dashboard_data := dashboard_data w;
                      trace := trace w ++ [e];
                      clock := clock w |}).

Definition tick : M nat :=
  fun w => (Ok (clock w), {| dashboard_data := dashboard_data w;
                             trace := trace w;
                             clock := S (clock w) |}).

Definition logging (lvl : level) : M unit := emit (EvLog lvl).

Definition datetime_now : M nat := tick.

(** [dashboard_data.append(row)] *)
Definition dashboard_append (row : WorkflowRecord) : M unit :=
  fun w => (Ok tt, {| dashboard_data := dashboard_data w ++ [row];
                      trace := trace w;
                      clock := clock w |}).

Inductive step_result : Type :=
| Stop                                   (* [return] after a failed fetch *)
| Continue (next_api : option string).   (* on to the recursive call *)

Section Service.

Variable env : Environment.
Variable config : Config.
(** [self.gs_sheet]: [true] for a sheet handle, [false] for [None]. *)
Variable gs_sheet : bool.

(** *** [ApiManager.fetch_data] *)

Definition http_get (api_url : string) : M Response :=
  t <- tick ;; emit (EvGet api_url) ;; lift (session_get env t api_url).

Definition raise_for_status (response : Response) : M unit :=
  if status_ok response then ret tt else lift (Raise RequestException).

Definition error_row (now : nat) (api_url : string) : WorkflowRecord :=
  {| timestamp := now; api := api_url; value := CStr "Erreur API";
     status := "Erreur"; max_value := CStr "N/A"; min_value := CStr "N/A";
     avg_value := CStr "N/A" |}.

(** The result is the decoded payload, or [None] ([JNull]) from the
    handler. *)
Definition fetch_data (api_url : string) : M json :=
  try_except
    (response <- http_get api_url ;;
     raise_for_status response ;;
     logging INFO ;;
     lift (json_body response))
    is_RequestException
    (fun _ =>
       logging ERROR ;;
       now <- datetime_now ;;
       dashboard_append (error_row now api_url) ;;
       ret JNull).

(** *** The notification sinks *)

Definition send_email (value : cell) : M unit :=
  try_except
    (t <- tick ;; emit (EvSmtp value) ;; lift (smtp_send env t value) ;;
     logging INFO)
    is_Exception
    (fun _ => logging ERROR).

Definition send_slack (value : cell) : M unit :=
  try_except
    (t <- tick ;; emit (EvPost value) ;; lift (session_post env t value) ;;
     logging INFO)
    is_RequestException
    (fun _ => logging ERROR).

Definition update_google_sheet (value : cell) : M unit :=
  if gs_sheet then
    try_except
      (now <- datetime_now ;;
       t <- tick ;; emit (EvAppendRow value now) ;;
       lift (append_row env t value) ;;
       logging INFO)
      is_Exception
      (fun _ => logging ERROR)
  else ret tt.

(** *** [WorkflowService.recursive_workflow] *)

(** Lines 141 to 173: one fetch and what follows it, up to the choice of
    the next endpoint. *)
Definition workflow_step (api_url : string) (depth : Z) : M step_result :=
  data <- fetch_data api_url ;;
  if is_None data then ret Stop
  else
    let numbers := find_numbers data in
    value <- (if is_empty numbers then ret (CStr "N/A")
              else n <- lift (py_index numbers 0) ;; ret (CNum n)) ;;
    metrics <-
      (if negb (is_empty numbers) then
         max_value <- lift (py_max numbers) ;;
         min_value <- lift (py_min numbers) ;;
         avg <- lift (average numbers) ;;
         send_email value ;;
         send_slack value ;;
         update_google_sheet value ;;
         alert <- (if py_ne_str value "N/A"
                   then lift (py_ge value (ALERT_THRESHOLD config))
                   else ret false) ;;
         status <- (if alert : bool then logging WARNING ;; ret "ALERTE"
                    else ret "OK") ;;
         ret (status, CNum max_value, CNum min_value,
              CNum (NFloat (py_round2 avg)))
       else ret ("OK", CStr "N/A", CStr "N/A", CStr "N/A")) ;;
    let '(status, max_value, min_value, avg_value) := metrics in
    now <- datetime_now ;;
    dashboard_append
      {| timestamp := now; api := api_url; value := value;
         status := status; max_value := max_value;
         min_value := min_value; avg_value := avg_value |} ;;
    emit (EvSelect numbers (depth + 1)) ;;
    next_api <- lift (select_next_api config numbers (depth + 1)) ;;
    ret (Continue next_api).

(** The recursion of lines 136 to 174.  [fuel] bounds the number of
    nested calls; [None] means the bound was too small. *)
Fixpoint recursive_workflow (fuel : nat) (api_url : option string)
  (depth : Z) (w : World) : option (outcome unit * World) :=
  match fuel with
  | O => None
  | S fuel' =>
      match emit (EvEnter depth) w with
      | (_, w0) =>
          match api_url with
          | None => Some (logging INFO w0)
          | Some url =>
              match workflow_step url depth w0 with
              | (Raise e, w1) => Some (Raise e, w1)
              | (Ok Stop, w1) => Some (Ok tt, w1)
              | (Ok (Continue next_api), w1) =>
                  recursive_workflow fuel' next_api (depth + 1) w1
              end
          end
      end
  end.

(** One pass of the loop of [start_workflow]. *)
Definition initial_api : string := "https://api.publicapis.org/random".

Definition run_fuel : nat := S (Z.to_nat (Z.max 1 (MAX_DEPTH config))).

Definition start_workflow_once (w : World) : option (outcome unit * World) :=
  match logging INFO w with
  | (_, w0) => recursive_workflow run_fuel (Some initial_api) 0 w0
  end.

End Service.

(** ** The dashboard read *)

(** [l[start:]] *)
Definition py_slice_from {A : Type} (start : Z) (l : list A) : list A :=
  let n := py_len l in
  let lo := if start <? 0 then Z.max (n + start) 0 else Z.min start n in
  skipn (Z.to_nat lo) l.

(** [l[::-1]] *)
Definition py_reversed {A : Type} (l : list A) : list A := rev l.

(** [GET /]: the rows handed to the template. *)
Definition dashboard (w : World) : list WorkflowRecord :=
  py_reversed (py_slice_from (-20) (dashboard_data w)).

(** [GET /api/latest] *)
Definition api_latest (w : World) : list WorkflowRecord :=
  py_reversed (py_slice_from (-20) (dashboard_data w)).

(** ** Startup and the scheduler loop *)

(** [WorkflowService._setup_google_sheet].  [authorize] is what loading the
    credentials, authorising the client and opening the sheet do together;
    the result is [true] for the sheet and [false] for [None]. *)
Definition setup_google_sheet (authorize : outcome unit) : M bool :=
  try_except (lift authorize ;; ret true) is_Exception
    (fun _ => logging ERROR ;; ret false).

(** [time.sleep(secs)] with an [int]: the seconds are converted to
    nanoseconds in 64 bits, which overflows beyond 9223372036; a negative
    length is a [ValueError]; otherwise the clock advances. *)
Definition time_sleep (secs : Z) : M unit :=
  if (secs <? -9223372036) || (9223372036 <? secs)
  then lift (Raise OverflowError)
  else if secs <? 0 then lift (Raise ValueError)
  else tick ;; ret tt.

(** The first [passes] passes of the [while True] loop of [start_workflow].
    An exception that leaves a pass, or [time.sleep], leaves the loop. *)
Fixpoint start_workflow (env : Environment) (config : Config)
  (gs_sheet : bool) (passes : nat) (w : World)
  : option (outcome unit * World) :=
  match passes with
  | O => Some (Ok tt, w)
  | S passes' =>
      match start_workflow_once env config gs_sheet w with
      | None => None
      | Some (Raise e, w1) => Some (Raise e, w1)
      | Some (Ok _, w1) =>
          match (logging INFO ;; time_sleep (INTERVAL config)) w1 with
          | (Raise e, w2) => Some (Raise e, w2)
          | (Ok _, w2) => start_workflow env config gs_sheet passes' w2
          end
      end
  end.

(** ** Vocabulary of the statements *)

(** The URLs a trace fetches, in order. *)
Fixpoint fetched (t : list event) : list string :=
  match t with
  | [] => []
  | EvGet url :: t' => url :: fetched t'
  | _ :: t' => fetched t'
  end.

(** The endpoints [select_next_api] can answer. *)
Definition registered_endpoints : list string :=
  [ENDPOINT_A; ENDPOINT_B; ENDPOINT_C].

(** The data source and the webhook raise request errors only. *)
Definition request_errors_only (env : Environment) : Prop :=
  (forall t url e, session_get env t url = Raise e ->
                   is_RequestException e = true)
  /\ (forall t url r e, session_get env t url = Ok r ->
                        json_body r = Raise e ->
                        is_RequestException e = true)
  /\ (forall t v e, session_post env t v = Raise e ->
                    is_RequestException e = true).

(** The sum of [int] samples. *)
Definition int_total (samples : list num) : Z :=
  fold_right (fun x acc => int_val x + acc) 0 samples.

Definition is_nan (n : num) : bool :=
  match num_val n with NaN => true | _ => false end.

Definition nan_free (samples : list num) : bool :=
  forallb (fun x => negb (is_nan x)) samples.

(** An [int] (or [bool]) of magnitude at most [bound]. *)
Definition int_within (bound : Z) (n : num) : bool :=
  is_int n && (Z.abs (int_val n) <=? bound).

(** The payloads of the data source hold [int] samples only, none of them
    beyond [2 ^ 1023] in magnitude. *)
Definition int_payloads (env : Environment) : Prop :=
  forall t url r data,
    session_get env t url = Ok r -> json_body r = Ok data ->
    forallb (int_within (2 ^ 1023)) (find_numbers data) = true.

(** [advance w rows evs n]: the world [w] after [rows] were appended to
    [dashboard_data], [evs] were observed and the clock ticked [n] times. *)
Definition advance (w : World) (rows : list WorkflowRecord) (evs : list event)
  (n : nat) : World :=
  {| dashboard_data := dashboard_data w ++ rows;
     trace := trace w ++ evs;
     clock := n + clock w |}.

(** The depths at which [recursive_workflow] was entered. *)
Fixpoint entered (t : list event) : list Z :=
  match t with
  | [] => []
  | EvEnter d :: t' => d :: entered t'
  | _ :: t' => entered t'
  end.

(** The sink calls of a trace. *)
Definition is_sink_call (e : event) : bool :=
  match e with
  | EvSmtp _ | EvPost _ | EvAppendRow _ _ => true
  | _ => false
  end.

Definition is_select_call (e : event) : bool :=
  match e with EvSelect _ _ => true | _ => false end.

(** The level a sink logs at: [INFO] after a delivery, [ERROR] from its
    handler. *)
Definition sink_level (o : outcome unit) : level :=
  match o with Ok _ => INFO | Raise _ => ERROR end.

(** The data-source fetch fails with the error kind of the HTTP client:
    the connection fails, the status is an error status, or the body is
    not valid JSON. *)
Inductive fetch_failure (o : outcome Response) : Prop :=
| connection_failed : o = Raise RequestException -> fetch_failure o
| error_status : forall r, o = Ok r -> status_ok r = false -> fetch_failure o
| invalid_body : forall r,
    o = Ok r -> status_ok r = true -> json_body r = Raise RequestException ->
    fetch_failure o.

(** [l] counts upwards from [d] in steps of one. *)
Fixpoint counts_from (d : Z) (l : list Z) : Prop :=
  match l with
  | [] => True
  | x :: l' => x = d /\ counts_from (d + 1) l'
  end.

Definition empty_row (now : nat) (api_url : string) : WorkflowRecord :=
  {| timestamp := now; api := api_url; value := CStr "N/A"; status := "OK";
     max_value := CStr "N/A"; min_value := CStr "N/A";
     avg_value := CStr "N/A" |}.

(** The row of an iteration with samples. *)
Definition sample_row (config : Config) (now : nat) (api_url : string)
  (n mx mn : num) (avg : pyfloat) : WorkflowRecord :=
  {| timestamp := now; api := api_url; value := CNum n;
     status := if py_le (NInt (ALERT_THRESHOLD config)) n
               then "ALERTE" else "OK";
     max_value := CNum mx; min_value := CNum mn;
     avg_value := CNum (NFloat (py_round2 avg)) |}.

(** ** Payloads, configurations and collaborators of the examples *)

Definition default_config : Config :=
  {| MAX_DEPTH := 5; INTERVAL := 60; ALERT_THRESHOLD := 1000 |}.

Definition zero_depth_config : Config :=
  {| MAX_DEPTH := 0; INTERVAL := 60; ALERT_THRESHOLD := 1000 |}.

(** [INTERVAL=-1] in the environment. *)
Definition hasty_config : Config :=
  {| MAX_DEPTH := 5; INTERVAL := -1; ALERT_THRESHOLD := 1000 |}.

Definition empty_world : World :=
  {| dashboard_data := []; trace := []; clock := 0 |}.

Definition flagged_payload : json :=
  JDict [("active", JBool true); ("count", JInt 3)].

(** [{"a": 10, "b": {"c": 20, "d": 80}}] *)
Definition sample_payload : json :=
  JDict [("a", JInt 10); ("b", JDict [("c", JInt 20); ("d", JInt 80)])].

(** [[50.0, 50.0, 49.99999999999999]] *)
Definition drifting_samples : list num :=
  [NFloat (to_double 50); NFloat (to_double 50);
   NFloat (to_double (4999999999999999 # 100000000000000))].


(** [{"x": "no numbers here"}] *)
Definition text_payload : json := JDict [("x", JStr "no numbers here")].

Definition answer (data : json) : Response :=
  {| status_ok := true; json_body := Ok data |}.

(** Every request is answered with [data]; every sink delivers. *)
Definition env_serving (data : json) : Environment :=
  {| session_get := fun _ _ => Ok (answer data);
     smtp_send := fun _ _ => Ok tt;
     session_post := fun _ _ => Ok tt;
     append_row := fun _ _ => Ok tt |}.

(** As [env_serving], but the call to the webhook raises [e]. *)
Definition env_webhook_raising (data : json) (e : exn) : Environment :=
  {| session_get := fun _ _ => Ok (answer data);
     smtp_send := fun _ _ => Ok tt;
     session_post := fun _ _ => Raise e;
     append_row := fun _ _ => Ok tt |}.

(** The data source times out. *)
Definition env_timeout : Environment :=
  {| session_get := fun _ _ => Raise RequestException;
     smtp_send := fun _ _ => Ok tt;
     session_post := fun _ _ => Ok tt;
     append_row := fun _ _ => Ok tt |}.

(** ** Structural induction on payloads *)

Section JsonInduction.

Variable P : json -> Prop.
Hypothesis Hnull : P JNull.
Hypothesis Hbool : forall b, P (JBool b).
Hypothesis Hint : forall z, P (JInt z).
Hypothesis Hfloat : forall q, P (JFloat q).
Hypothesis Hstr : forall s, P (JStr s).
Hypothesis Hlist : forall items, Forall P items -> P (JList items).
Hypothesis Hdict :
  forall entries, Forall (fun kv => P (snd kv)) entries -> P (JDict entries).

Fixpoint json_nested_ind (v : json) : P v :=
  match v with
  | JNull => Hnull
  | JBool b => Hbool b
  | JInt z => Hint z
  | JFloat q => Hfloat q
  | JStr s => Hstr s
  | JList items =>
      Hlist ((fix all (l : list json) : Forall P l :=
                match l with
                | [] => Forall_nil P
                | x :: l' => Forall_cons x (json_nested_ind x) (all l')
                end) items)
  | JDict entries =>
      Hdict ((fix all (l : list (string * json))
                : Forall (fun kv => P (snd kv)) l :=
                match l with
                | [] => Forall_nil _
                | kv :: l' =>
                    Forall_cons kv (json_nested_ind (snd kv)) (all l')
                end) entries)
  end.

End JsonInduction.

(** * Properties *)

(** ** Extraction *)

(** The accumulator loop [for x in l: results.extend(f(x))]. *)
Lemma extend_loop_flat_map {A B : Type} (f : A -> list B) (l : list A)
  (results : list B) :
  fold_left (fun results x => results ++ f x) l results
  = results ++ flat_map f l.
Proof.
  revert results.
  induction l as [|x l IH]; intros results; simpl.
  - now rewrite app_nil_r.
  - now rewrite IH, app_assoc.
Qed.

Lemma flat_map_ext_Forall {A B : Type} (f g : A -> list B) (l : list A) :
  Forall (fun x => f x = g x) l -> flat_map f l = flat_map g l.
Proof.
  induction 1 as [|x l Hx _ IH]; simpl; [reflexivity|].
  now rewrite Hx, IH.
Qed.

(** [find_numbers] returns the leaves that are instances of [int] or
    [float], in traversal order. *)
Lemma find_numbers_leaves (obj : json) :
  find_numbers obj = int_or_float_leaves obj.
Proof.
  induction obj as [| | | | |items IH|entries IH] using json_nested_ind;
    simpl; try reflexivity.
  - rewrite extend_loop_flat_map. simpl. now apply flat_map_ext_Forall.
  - rewrite extend_loop_flat_map. simpl. now apply flat_map_ext_Forall.
Qed.

Lemma filter_flat_map {A B : Type} (p : B -> bool) (f : A -> list B)
  (l : list A) :
  filter p (flat_map f l) = flat_map (fun x => filter p (f x)) l.
Proof.
  induction l as [|x l IH]; simpl; [reflexivity|].
  now rewrite filter_app, IH.
Qed.

(** The numeric leaves of the specification are what [find_numbers]
    returns once the booleans are dropped. *)
Lemma numeric_leaves_filter (obj : json) :
  numeric_leaves obj = filter (fun n => negb (is_bool n)) (find_numbers obj).
Proof.
  rewrite find_numbers_leaves.
  induction obj as [| | | | |items IH|entries IH] using json_nested_ind;
    simpl; try reflexivity.
  - rewrite filter_flat_map. now apply flat_map_ext_Forall.
  - rewrite filter_flat_map. now apply flat_map_ext_Forall.
Qed.

(** On payloads without booleans the code and the specification agree. *)
Lemma find_numbers_bool_free (obj : json) :
  bool_free obj = true -> find_numbers obj = numeric_leaves obj.
Proof.
  rewrite find_numbers_leaves.
  induction obj as [| | | | |items IH|entries IH] using json_nested_ind;
    simpl; intros Hfree; try reflexivity; try discriminate.
  - apply flat_map_ext_Forall.
    rewrite forallb_forall in Hfree. rewrite Forall_forall in *.
    intros x Hx. apply IH; auto.
  - apply flat_map_ext_Forall.
    rewrite forallb_forall in Hfree. rewrite Forall_forall in *.
    intros x Hx. apply IH; auto.
Qed.

Lemma find_numbers_scalars :
  find_numbers JNull = []
  /\ (forall s, find_numbers (JStr s) = [])
  /\ (forall z, find_numbers (JInt z) = [NInt z])
  /\ (forall q, find_numbers (JFloat q) = [NFloat q]).
Proof. repeat split. Qed.

(** C1, at the payload [{"active": true, "count": 3}]: [find_numbers]
    returns the boolean leaf [True] ahead of [3], whereas the numeric
    leaves of the payload are [3] alone; a boolean scalar by itself is
    returned as a one-element sequence. *)
Theorem find_numbers_keeps_booleans :
  find_numbers flagged_payload = [NBool true; NInt 3]
  /\ numeric_leaves flagged_payload = [NInt 3]
  /\ find_numbers (JBool true) = [NBool true].
Proof. repeat split. Qed.

(** ** Rounding to the nearest double *)

Unset Implicit Arguments.

Lemma Qltb_lt (x y : Q) : Qltb x y = true <-> (x < y)%Q.
Proof.
  unfold Qltb. rewrite negb_true_iff. split.
  - intros H. apply Qnot_le_lt. intros Hle.
    apply Qle_bool_iff in Hle. congruence.
  - intros H. destruct (Qle_bool y x) eqn:E; [|reflexivity].
    apply Qle_bool_iff in E. exfalso. now apply (Qlt_not_le x y).
Qed.

Lemma Qltb_ge (x y : Q) : Qltb x y = false <-> (y <= x)%Q.
Proof.
  unfold Qltb. rewrite negb_false_iff. apply Qle_bool_iff.
Qed.

Lemma Qle_bool_false (x y : Q) : Qle_bool x y = false <-> (y < x)%Q.
Proof.
  split.
  - intros H. apply Qnot_le_lt. intros Hle.
    apply Qle_bool_iff in Hle. congruence.
  - intros H. destruct (Qle_bool x y) eqn:E; [|reflexivity].
    apply Qle_bool_iff in E. exfalso. now apply (Qlt_not_le y x).
Qed.

Lemma Qle_bool_comp (x x' y y' : Q) :
  (x == x')%Q -> (y == y')%Q -> Qle_bool x y = Qle_bool x' y'.
Proof.
  intros Hx Hy.
  destruct (Qle_bool x y) eqn:E; symmetry.
  - apply Qle_bool_iff. apply Qle_bool_iff in E. now rewrite <- Hx, <- Hy.
  - apply Qle_bool_false. apply Qle_bool_false in E. now rewrite <- Hx, <- Hy.
Qed.

Lemma Qcompare_zero (x : Q) :
  (Qcompare x 0 = Eq /\ x == 0)%Q
  \/ (Qcompare x 0 = Lt /\ x < 0)%Q
  \/ (Qcompare x 0 = Gt /\ 0 < x)%Q.
Proof.
  destruct (Qcompare x 0) eqn:E.
  - left. split; [reflexivity|]. now apply Qeq_alt.
  - right. left. split; [reflexivity|]. now apply Qlt_alt.
  - right. right. split; [reflexivity|]. now apply Qgt_alt in E.
Qed.

Lemma round_half_even_near (x : Q) :
  (x - (1 # 2) <= inject_Z (round_half_even x)
   /\ inject_Z (round_half_even x) <= x + (1 # 2))%Q.
Proof.
  unfold round_half_even. cbv zeta.
  pose proof (Qfloor_le x) as Hlo.
  pose proof (Qlt_floor x) as Hhi.
  rewrite inject_Z_plus in Hhi.
  change (inject_Z 1) with 1%Q in Hhi.
  destruct (Qcompare (x - inject_Z (Qfloor x)) (1 # 2)) eqn:E.
  - apply Qeq_alt in E.
    destruct (Z.even (Qfloor x)); rewrite ?inject_Z_plus;
      change (inject_Z 1) with 1%Q; split; lra.
  - apply Qlt_alt in E. split; lra.
  - apply Qgt_alt in E. rewrite inject_Z_plus.
    change (inject_Z 1) with 1%Q. split; lra.
Qed.

Lemma round_half_even_comp (x y : Q) :
  (x == y)%Q -> round_half_even x = round_half_even y.
Proof.
  intros H. unfold round_half_even. cbv zeta.
  rewrite (Qfloor_comp x y H).
  assert (E : (x - inject_Z (Qfloor y) == y - inject_Z (Qfloor y))%Q)
    by now rewrite H.
  now rewrite (Qcompare_comp _ _ E _ _ (Qeq_refl (1 # 2))).
Qed.

(** An integer is its own nearest integer. *)
Lemma round_half_even_Z (k : Z) : round_half_even (inject_Z k) = k.
Proof.
  unfold round_half_even. cbv zeta. rewrite Qfloor_Z.
  destruct (Qcompare (inject_Z k - inject_Z k) (1 # 2)) eqn:E.
  - apply Qeq_alt in E. exfalso. lra.
  - reflexivity.
  - apply Qgt_alt in E. exfalso. lra.
Qed.

Lemma round_half_even_mono (x y : Q) :
  (x <= y)%Q -> round_half_even x <= round_half_even y.
Proof.
  intros Hxy.
  destruct (Z_lt_le_dec (round_half_even y) (round_half_even x)) as [Hlt|];
    [|assumption].
  exfalso.
  destruct (round_half_even_near x) as [Hx1 Hx2].
  destruct (round_half_even_near y) as [Hy1 Hy2].
  assert (H1 : (inject_Z (round_half_even y) + 1
                <= inject_Z (round_half_even x))%Q).
  { rewrite <- (inject_Z_plus _ 1). rewrite <- Zle_Qle. lia. }
  assert (Heq : (x == y)%Q) by lra.
  rewrite (round_half_even_comp x y Heq) in Hlt. lia.
Qed.

Lemma two_pow_pos (e : Z) : (0 < 2 ^ e)%Q.
Proof. apply Qpower_0_lt. reflexivity. Qed.

Lemma two_pow_inject (e : Z) : 0 <= e -> (2 ^ e == inject_Z (2 ^ e))%Q.
Proof. intros He. symmetry. exact (Zpower_Qpower 2 e He). Qed.

Lemma two_pow_le (a b : Z) : a <= b -> (2 ^ a <= 2 ^ b)%Q.
Proof. intros H. apply Qpower_le_compat_l; [assumption|discriminate]. Qed.

Lemma two_pow_lt_inv (a b : Z) : (2 ^ a < 2 ^ b)%Q -> a < b.
Proof. intros H. apply (Qpower_lt_compat_l_inv 2); [assumption|reflexivity]. Qed.

Lemma two_pow_add (a b : Z) : (2 ^ (a + b) == 2 ^ a * 2 ^ b)%Q.
Proof. apply Qpower_plus. discriminate. Qed.

Lemma two_pow_sub (a b : Z) : (2 ^ a / 2 ^ b == 2 ^ (a - b))%Q.
Proof. symmetry. apply Qpower_minus. discriminate. Qed.

(** [binade x] is the exponent of the power of two at or below [x]. *)
Lemma binade_spec (x : Q) :
  (0 < x)%Q -> (2 ^ binade x <= x /\ x < 2 ^ (binade x + 1))%Q.
Proof.
  intros Hpos. unfold binade.
  destruct (Qle_bool 1 x) eqn:E.
  - apply Qle_bool_iff in E.
    assert (Hf : 1 <= Qfloor x).
    { change 1 with (Qfloor 1). now apply Qfloor_resp_le. }
    destruct (Z.log2_spec (Qfloor x)) as [H1 H2]; [lia|].
    pose proof (Z.log2_nonneg (Qfloor x)) as Hn.
    rewrite !two_pow_inject by lia.
    pose proof (Qfloor_le x) as Hlo. pose proof (Qlt_floor x) as Hhi.
    split.
    + eapply Qle_trans; [|exact Hlo]. rewrite <- Zle_Qle. exact H1.
    + eapply Qlt_le_trans; [exact Hhi|]. rewrite <- Zle_Qle.
      replace (Z.log2 (Qfloor x) + 1) with (Z.succ (Z.log2 (Qfloor x))) by lia.
      lia.
  - assert (Hlt : (x < 1)%Q) by (now apply Qle_bool_false).
    assert (Hinv : (1 < / x)%Q).
    { apply Qlt_shift_inv_l; [assumption|]. lra. }
    set (c := Qceiling (/ x)).
    assert (Hc1 : (/ x <= inject_Z c)%Q) by apply Qle_ceiling.
    assert (Hc2 : (inject_Z (c - 1) < / x)%Q) by apply Qceiling_lt.
    assert (Hc : 1 < c).
    { rewrite Zlt_Qlt. eapply Qlt_le_trans; [exact Hinv|exact Hc1]. }
    destruct (Z.log2_up_spec c Hc) as [H1 H2].
    pose proof (Z.log2_up_nonneg c) as Hn.
    assert (Hk : 0 < Z.log2_up c).
    { destruct (Z.eq_dec (Z.log2_up c) 0) as [E0|]; [|lia].
      rewrite E0 in H2. simpl in H2. lia. }
    set (k := Z.log2_up c) in *.
    replace (Z.pred k) with (k - 1) in H1 by lia.
    assert (Hx : (x * / x == 1)%Q).
    { apply Qmult_inv_r. lra. }
    assert (Hi : (0 < / x)%Q) by lra.
    split.
    + rewrite Qpower_opp, two_pow_inject by lia.
      assert (Hp : (/ x <= inject_Z (2 ^ k))%Q).
      { eapply Qle_trans; [exact Hc1|]. rewrite <- Zle_Qle. exact H2. }
      apply Qle_shift_inv_r; [lra|].
      rewrite <- Hx. apply Qmult_le_l; assumption.
    + replace (- k + 1) with (- (k - 1)) by lia.
      rewrite Qpower_opp, two_pow_inject by lia.
      assert (Hp : (0 < inject_Z (2 ^ (k - 1)))%Q).
      { change 0%Q with (inject_Z 0). rewrite <- Zlt_Qlt.
        apply Z.pow_pos_nonneg; lia. }
      assert (Hq : (inject_Z (2 ^ (k - 1)) < / x)%Q).
      { eapply Qle_lt_trans; [|exact Hc2]. rewrite <- Zle_Qle. lia. }
      apply Qlt_shift_inv_l; [assumption|].
      rewrite <- Hx. apply Qmult_lt_l; assumption.
Qed.

Lemma binade_mono (x y : Q) :
  (0 < x)%Q -> (x <= y)%Q -> binade x <= binade y.
Proof.
  intros Hx Hxy.
  destruct (binade_spec x Hx) as [H1 _].
  destruct (binade_spec y) as [_ H2]; [lra|].
  assert (H : (2 ^ binade x < 2 ^ (binade y + 1))%Q) by lra.
  apply two_pow_lt_inv in H. lia.
Qed.

Lemma quantum_pos (x : Q) : (0 < quantum x)%Q.
Proof. apply two_pow_pos. Qed.

Lemma round_half_even_two_pow (e : Z) :
  0 <= e -> (inject_Z (round_half_even (2 ^ e)%Q) == 2 ^ e)%Q.
Proof.
  intros He.
  rewrite (round_half_even_comp _ _ (two_pow_inject e He)), round_half_even_Z.
  symmetry. now apply two_pow_inject.
Qed.

Lemma Qdiv_le_compat (x y q : Q) :
  (0 < q)%Q -> (x <= y)%Q -> (x / q <= y / q)%Q.
Proof.
  intros Hq Hxy. apply Qle_shift_div_l; [assumption|].
  unfold Qdiv.
  rewrite <- Qmult_assoc, (Qmult_comm (/ q)), Qmult_inv_r, Qmult_1_r by lra.
  assumption.
Qed.

Lemma round_pos_nonneg (x : Q) : (0 <= x)%Q -> (0 <= round_pos x)%Q.
Proof.
  intros Hx. unfold round_pos.
  apply Qmult_le_0_compat; [|apply Qlt_le_weak, quantum_pos].
  change 0%Q with (inject_Z 0). rewrite <- Zle_Qle.
  rewrite <- (round_half_even_Z 0). apply round_half_even_mono.
  change (inject_Z 0) with 0%Q.
  apply Qle_shift_div_l; [apply quantum_pos|]. lra.
Qed.

(** Rounding does not leave the binade upwards by more than its end. *)
Lemma round_pos_upper (x : Q) :
  (0 < x)%Q -> (round_pos x <= 2 ^ (expo x + 1))%Q.
Proof.
  intros Hx. unfold round_pos, quantum.
  destruct (binade_spec x Hx) as [_ Hhi].
  assert (Hx' : (x <= 2 ^ (expo x + 1))%Q).
  { apply Qlt_le_weak. eapply Qlt_le_trans; [exact Hhi|].
    apply two_pow_le. unfold expo. lia. }
  assert (H : (x / 2 ^ (expo x - 52) <= 2 ^ 53)%Q).
  { assert (E : (2 ^ 53 == 2 ^ (expo x + 1) / 2 ^ (expo x - 52))%Q).
    { rewrite two_pow_sub.
      now replace (expo x + 1 - (expo x - 52)) with 53 by lia. }
    rewrite E.
    apply Qdiv_le_compat; [apply two_pow_pos|assumption]. }
  apply round_half_even_mono in H. rewrite Zle_Qle in H.
  rewrite (round_half_even_two_pow 53) in H by lia.
  assert (E2 : (2 ^ (expo x + 1) == 2 ^ 53 * 2 ^ (expo x - 52))%Q).
  { rewrite <- two_pow_add.
    now replace (53 + (expo x - 52)) with (expo x + 1) by lia. }
  rewrite E2.
  apply Qmult_le_compat_r; [assumption|apply Qlt_le_weak, two_pow_pos].
Qed.

(** A normal number is not rounded below the start of its binade. *)
Lemma round_pos_lower (x : Q) :
  (0 < x)%Q -> -1022 <= binade x -> (2 ^ binade x <= round_pos x)%Q.
Proof.
  intros Hx Hb. unfold round_pos, quantum.
  assert (He : expo x = binade x) by (unfold expo; lia). rewrite He.
  destruct (binade_spec x Hx) as [Hlo _].
  assert (H : (2 ^ 52 <= x / 2 ^ (binade x - 52))%Q).
  { assert (E : (2 ^ 52 == 2 ^ binade x / 2 ^ (binade x - 52))%Q).
    { rewrite two_pow_sub.
      now replace (binade x - (binade x - 52)) with 52 by lia. }
    rewrite E.
    apply Qdiv_le_compat; [apply two_pow_pos|assumption]. }
  apply round_half_even_mono in H. rewrite Zle_Qle in H.
  rewrite (round_half_even_two_pow 52) in H by lia.
  assert (E2 : (2 ^ binade x == 2 ^ 52 * 2 ^ (binade x - 52))%Q).
  { rewrite <- two_pow_add.
    now replace (52 + (binade x - 52)) with (binade x) by lia. }
  rewrite E2.
  apply Qmult_le_compat_r; [assumption|apply Qlt_le_weak, two_pow_pos].
Qed.

Lemma round_pos_mono (x y : Q) :
  (0 < x)%Q -> (x <= y)%Q -> (round_pos x <= round_pos y)%Q.
Proof.
  intros Hx Hxy. assert (Hy : (0 < y)%Q) by lra.
  pose proof (binade_mono x y Hx Hxy) as Hb.
  destruct (Z.eq_dec (expo x) (expo y)) as [E|E].
  - unfold round_pos, quantum. rewrite E.
    apply Qmult_le_compat_r; [|apply Qlt_le_weak, two_pow_pos].
    rewrite <- Zle_Qle. apply round_half_even_mono.
    apply Qdiv_le_compat; [apply two_pow_pos|assumption].
  - assert (Hlt : expo x < expo y) by (unfold expo in *; lia).
    assert (Hey : expo y = binade y) by (unfold expo in *; lia).
    eapply Qle_trans; [apply (round_pos_upper x Hx)|].
    eapply Qle_trans; [|apply (round_pos_lower y Hy)].
    + apply two_pow_le. lia.
    + unfold expo in *. lia.
Qed.

(** Rounding to the nearest double is monotone. *)
Lemma round_nearest_mono (x y : Q) :
  (x <= y)%Q -> (round_nearest x <= round_nearest y)%Q.
Proof.
  intros Hxy. unfold round_nearest.
  destruct (Qcompare_zero x) as [[-> Hx]|[[-> Hx]|[-> Hx]]];
    destruct (Qcompare_zero y) as [[-> Hy]|[[-> Hy]|[-> Hy]]];
    try lra.
  - apply round_pos_nonneg. lra.
  - assert (H := round_pos_nonneg (- x)). lra.
  - assert (H := round_pos_mono (- y) (- x)). lra.
  - assert (H1 := round_pos_nonneg (- x)).
    assert (H2 := round_pos_nonneg y). lra.
  - apply round_pos_mono; lra.
Qed.

Lemma round_nearest_comp (x y : Q) :
  (x == y)%Q -> (round_nearest x == round_nearest y)%Q.
Proof.
  intros H. apply Qle_antisym; apply round_nearest_mono; rewrite H;
    apply Qle_refl.
Qed.

Lemma binade_inject_Z (z : Z) : 1 <= z -> binade (inject_Z z) = Z.log2 z.
Proof.
  intros Hz. unfold binade.
  assert (E : Qle_bool 1 (inject_Z z) = true).
  { apply Qle_bool_iff. change 1%Q with (inject_Z 1). now rewrite <- Zle_Qle. }
  now rewrite E, Qfloor_Z.
Qed.

Lemma round_pos_int (z : Z) :
  1 <= z <= 2 ^ 53 -> (round_pos (inject_Z z) == inject_Z z)%Q.
Proof.
  intros [Hlo Hhi].
  destruct (Z.eq_dec z (2 ^ 53)) as [->|Hne]; [vm_compute; reflexivity|].
  assert (Hb : 0 <= Z.log2 z <= 52).
  { split; [apply Z.log2_nonneg|].
    assert (H : Z.log2 z < 53) by (apply Z.log2_lt_pow2; lia). lia. }
  unfold round_pos, quantum, expo. rewrite binade_inject_Z by assumption.
  rewrite Z.max_l by lia.
  set (k := 52 - Z.log2 z).
  replace (Z.log2 z - 52) with (- k) by (unfold k; lia).
  assert (Hk : 0 <= k) by (unfold k; lia).
  assert (Eq : (2 ^ (- k) == / inject_Z (2 ^ k))%Q).
  { rewrite Qpower_opp. now rewrite (two_pow_inject k Hk). }
  assert (Hp : (0 < inject_Z (2 ^ k))%Q).
  { change 0%Q with (inject_Z 0). rewrite <- Zlt_Qlt.
    apply Z.pow_pos_nonneg; lia. }
  assert (T : (inject_Z z / 2 ^ (- k) == inject_Z (z * 2 ^ k))%Q).
  { rewrite Eq, inject_Z_mult. field. lra. }
  rewrite (round_half_even_comp _ _ T), round_half_even_Z.
  apply Qeq_trans with (inject_Z (z * 2 ^ k) * / inject_Z (2 ^ k))%Q.
  - apply Qmult_comp; [reflexivity|exact Eq].
  - rewrite inject_Z_mult. field. lra.
Qed.

(** An integer of magnitude at most [2 ^ 53] is a double. *)
Lemma round_nearest_int (z : Z) :
  Z.abs z <= 2 ^ 53 -> (round_nearest (inject_Z z) == inject_Z z)%Q.
Proof.
  intros Hz. unfold round_nearest.
  destruct (Qcompare_zero (inject_Z z)) as [[-> H]|[[-> H]|[-> H]]].
  - now rewrite H.
  - change 0%Q with (inject_Z 0) in H. rewrite <- Zlt_Qlt in H.
    rewrite <- inject_Z_opp, round_pos_int by lia.
    rewrite inject_Z_opp. ring.
  - change 0%Q with (inject_Z 0) in H. rewrite <- Zlt_Qlt in H.
    apply round_pos_int. lia.
Qed.

(** *** Doubles *)

Lemma to_double_comp (x y : Q) : (x == y)%Q -> to_double x = to_double y.
Proof.
  intros H. unfold to_double. cbv zeta.
  pose proof (round_nearest_comp x y H) as Hr.
  rewrite (Qle_bool_comp (2 ^ 1024) (2 ^ 1024) (round_nearest x)
             (round_nearest y) (Qeq_refl _) Hr).
  rewrite (Qle_bool_comp (round_nearest x) (round_nearest y) (- 2 ^ 1024)
             (- 2 ^ 1024) Hr (Qeq_refl _)).
  now rewrite (Qred_complete _ _ Hr).
Qed.

Lemma to_double_not_NaN (x : Q) : to_double x <> NaN.
Proof.
  unfold to_double. cbv zeta.
  destruct (Qle_bool (2 ^ 1024) (round_nearest x)); [discriminate|].
  destruct (Qle_bool (round_nearest x) (- 2 ^ 1024)); discriminate.
Qed.

Lemma to_double_Fin (x q : Q) :
  to_double x = Fin q -> (q == round_nearest x)%Q.
Proof.
  unfold to_double. cbv zeta.
  destruct (Qle_bool (2 ^ 1024) (round_nearest x)); [discriminate|].
  destruct (Qle_bool (round_nearest x) (- 2 ^ 1024)); [discriminate|].
  intros [= <-]. apply Qred_correct.
Qed.

(** Between two doubles of the finite range the result is finite and stays
    between them. *)
Lemma to_double_between (x lo hi : Q) :
  (lo <= x)%Q -> (x <= hi)%Q ->
  (round_nearest lo == lo)%Q -> (round_nearest hi == hi)%Q ->
  (- 2 ^ 1024 < lo)%Q -> (hi < 2 ^ 1024)%Q ->
  exists q, to_double x = Fin q /\ (lo <= q)%Q /\ (q <= hi)%Q.
Proof.
  intros Hlo Hhi Flo Fhi Blo Bhi.
  pose proof (round_nearest_mono lo x Hlo) as H1.
  pose proof (round_nearest_mono x hi Hhi) as H2.
  rewrite Flo in H1. rewrite Fhi in H2.
  unfold to_double. cbv zeta.
  assert (E1 : Qle_bool (2 ^ 1024) (round_nearest x) = false).
  { apply Qle_bool_false. eapply Qle_lt_trans; [exact H2|exact Bhi]. }
  assert (E2 : Qle_bool (round_nearest x) (- 2 ^ 1024) = false).
  { apply Qle_bool_false. eapply Qlt_le_trans; [exact Blo|exact H1]. }
  rewrite E1, E2. eexists. split; [reflexivity|].
  rewrite Qred_correct. split; assumption.
Qed.

(** ** Arithmetic on samples *)

(** What the addition and the division can raise. *)
Lemma float_of_int_raises (z : Z) (e : exn) :
  float_of_int z = Raise e -> e = OverflowError.
Proof.
  unfold float_of_int. destruct (to_double (inject_Z z)); congruence.
Qed.

Lemma py_add_raises (a b : num) (e : exn) :
  py_add a b = Raise e -> e = OverflowError.
Proof.
  destruct a as [x|x|x], b as [y|y|y]; cbn [py_add int_val];
    try discriminate;
    match goal with
    | |- context [float_of_int ?z] =>
        destruct (float_of_int z) eqn:E; cbn [obind];
        [discriminate|intros [= <-]; exact (float_of_int_raises _ _ E)]
    end.
Qed.

Lemma sum_from_raises (numbers : list num) :
  forall acc e, sum_from acc numbers = Raise e -> e = OverflowError.
Proof.
  induction numbers as [|x l IH]; intros acc e; cbn [sum_from];
    [discriminate|].
  destruct (py_add acc x) as [acc'|e'] eqn:E; cbn [obind].
  - apply IH.
  - intros [= <-]. exact (py_add_raises _ _ _ E).
Qed.

Lemma round_nearest_one : (round_nearest 1 == 1)%Q.
Proof. vm_compute. reflexivity. Qed.

Lemma float_of_int_positive (z : Z) (f : pyfloat) :
  1 <= z -> float_of_int z = Ok f -> exists q, f = Fin q /\ (1 <= q)%Q.
Proof.
  intros Hz. unfold float_of_int.
  destruct (to_double (inject_Z z)) as [q| | |] eqn:E; try discriminate.
  intros [= <-]. exists q. split; [reflexivity|].
  rewrite (to_double_Fin _ _ E), <- round_nearest_one.
  apply round_nearest_mono. change 1%Q with (inject_Z 1).
  now rewrite <- Zle_Qle.
Qed.

Lemma float_div_positive (a : pyfloat) (q : Q) :
  (1 <= q)%Q -> exists f, float_div a (Fin q) = Ok f.
Proof.
  intros Hq.
  assert (E : Qeq_bool q 0 = false).
  { destruct (Qeq_bool q 0) eqn:E; [|reflexivity].
    apply Qeq_bool_iff in E. lra. }
  cbn [float_div]. rewrite E. destruct a; now eexists.
Qed.

Lemma py_truediv_raises (a : num) (b : Z) (e : exn) :
  1 <= b -> py_truediv a b = Raise e -> e = OverflowError.
Proof.
  intros Hb. unfold py_truediv.
  assert (E : (b =? 0) = false) by (apply Z.eqb_neq; lia).
  destruct a as [x|x|f]; rewrite ?E.
  - destruct (to_double _); congruence.
  - destruct (to_double _); congruence.
  - destruct (float_of_int b) as [y|e'] eqn:Ey; cbn [obind].
    + destruct (float_of_int_positive b y Hb Ey) as (q & -> & Hq).
      destruct (float_div_positive f q Hq) as (r & ->). discriminate.
    + intros [= <-]. exact (float_of_int_raises _ _ Ey).
Qed.

Lemma py_len_positive {A : Type} (l : list A) : l <> [] -> 1 <= py_len l.
Proof.
  intros Hne. destruct l as [|x l]; [congruence|].
  unfold py_len. cbn [List.length]. lia.
Qed.

(** On a non-empty list [sum(numbers)/len(numbers)] raises nothing but
    [OverflowError]. *)
Lemma average_raises (numbers : list num) (e : exn) :
  numbers <> [] -> average numbers = Raise e -> e = OverflowError.
Proof.
  intros Hne. unfold average, py_sum.
  destruct (sum_from (NInt 0) numbers) as [s|e'] eqn:E; cbn [obind].
  - apply py_truediv_raises. now apply py_len_positive.
  - intros [= <-]. exact (sum_from_raises _ _ _ E).
Qed.

(** *** Samples that are all [int] *)

Lemma py_add_int (a b : num) :
  is_int a = true -> is_int b = true ->
  py_add a b = Ok (NInt (int_val a + int_val b)).
Proof. destruct a, b; try discriminate; reflexivity. Qed.

Lemma sum_from_int (numbers : list num) :
  forall z,
    forallb is_int numbers = true ->
    sum_from (NInt z) numbers = Ok (NInt (z + int_total numbers)).
Proof.
  induction numbers as [|x l IH]; intros z Hall;
    cbn [sum_from int_total fold_right].
  - now rewrite Z.add_0_r.
  - cbn [forallb] in Hall. apply andb_prop in Hall. destruct Hall as [Hx Hl].
    rewrite (py_add_int (NInt z) x eq_refl Hx). cbn [obind int_val].
    rewrite IH by assumption.
    fold (int_total l). now rewrite Z.add_assoc.
Qed.

Lemma py_sum_int (numbers : list num) :
  forallb is_int numbers = true -> py_sum numbers = Ok (NInt (int_total numbers)).
Proof.
  intros Hall. unfold py_sum. now rewrite sum_from_int.
Qed.

Lemma rational_int (x : num) :
  is_int x = true -> rational x = inject_Z (int_val x).
Proof. destruct x; try discriminate; reflexivity. Qed.

Lemma total_int (numbers : list num) :
  forallb is_int numbers = true ->
  (total numbers == inject_Z (int_total numbers))%Q.
Proof.
  induction numbers as [|x l IH]; intros Hall;
    cbn [total int_total fold_right]; [reflexivity|].
  cbn [forallb] in Hall. apply andb_prop in Hall. destruct Hall as [Hx Hl].
  fold (total l) (int_total l).
  rewrite (rational_int x Hx), (IH Hl), inject_Z_plus. reflexivity.
Qed.

(** On [int] samples the sum is exact, and the division rounds the mean
    once. *)
Lemma average_int (numbers : list num) :
  forallb is_int numbers = true -> numbers <> [] ->
  average numbers
  = match to_double (mean numbers) with
    | Fin q => Ok (Fin q)
    | _ => Raise OverflowError
    end.
Proof.
  intros Hall Hne. unfold average. rewrite (py_sum_int numbers Hall).
  cbn [obind py_truediv int_val].
  assert (E : (py_len numbers =? 0) = false).
  { apply Z.eqb_neq. pose proof (py_len_positive numbers Hne). lia. }
  rewrite E.
  assert (Hm : (inject_Z (int_total numbers) / inject_Z (py_len numbers)
                == mean numbers)%Q).
  { unfold mean, py_len. now rewrite (total_int numbers Hall). }
  now rewrite (to_double_comp _ _ Hm).
Qed.

Lemma average_int_between (numbers : list num) (lo hi : Q) :
  forallb is_int numbers = true -> numbers <> [] ->
  (lo <= mean numbers)%Q -> (mean numbers <= hi)%Q ->
  (round_nearest lo == lo)%Q -> (round_nearest hi == hi)%Q ->
  (- 2 ^ 1024 < lo)%Q -> (hi < 2 ^ 1024)%Q ->
  exists q, average numbers = Ok (Fin q) /\ (lo <= q)%Q /\ (q <= hi)%Q.
Proof.
  intros Hall Hne Hlo Hhi Flo Fhi Blo Bhi.
  rewrite (average_int numbers Hall Hne).
  destruct (to_double_between (mean numbers) lo hi Hlo Hhi Flo Fhi Blo Bhi)
    as (q & -> & Hq).
  now exists q.
Qed.

Lemma total_lower_bound (lo : Q) (l : list num) :
  (forall x, In x l -> (lo <= rational x)%Q) ->
  (inject_Z (Z.of_nat (List.length l)) * lo <= total l)%Q.
Proof.
  induction l as [|x l IH]; intros Hall.
  - cbn [total fold_right List.length Z.of_nat]. change (inject_Z 0) with 0%Q. lra.
  - cbn [total fold_right]. fold (total l).
    change (List.length (x :: l)) with (S (List.length l)).
    rewrite Nat2Z.inj_succ, <- Z.add_1_r, inject_Z_plus.
    change (inject_Z 1) with 1%Q.
    assert (Hx : (lo <= rational x)%Q) by (apply Hall; now left).
    assert (IH' : (inject_Z (Z.of_nat (List.length l)) * lo <= total l)%Q)
      by (apply IH; intros y Hy; apply Hall; now right).
    lra.
Qed.

Lemma total_upper_bound (hi : Q) (l : list num) :
  (forall x, In x l -> (rational x <= hi)%Q) ->
  (total l <= inject_Z (Z.of_nat (List.length l)) * hi)%Q.
Proof.
  induction l as [|x l IH]; intros Hall.
  - cbn [total fold_right List.length Z.of_nat]. change (inject_Z 0) with 0%Q. lra.
  - cbn [total fold_right]. fold (total l).
    change (List.length (x :: l)) with (S (List.length l)).
    rewrite Nat2Z.inj_succ, <- Z.add_1_r, inject_Z_plus.
    change (inject_Z 1) with 1%Q.
    assert (Hx : (rational x <= hi)%Q) by (apply Hall; now left).
    assert (IH' : (total l <= inject_Z (Z.of_nat (List.length l)) * hi)%Q)
      by (apply IH; intros y Hy; apply Hall; now right).
    lra.
Qed.

Lemma length_positive (l : list num) :
  l <> [] -> (0 < inject_Z (Z.of_nat (List.length l)))%Q.
Proof.
  intros Hne. destruct l as [|x l]; [congruence|].
  change 0%Q with (inject_Z 0). rewrite <- Zlt_Qlt. simpl. lia.
Qed.

(** The mean lies between any two bounds of the samples. *)
Lemma mean_between (lo hi : Q) (l : list num) :
  l <> [] ->
  (forall x, In x l -> (lo <= rational x /\ rational x <= hi)%Q) ->
  (lo <= mean l /\ mean l <= hi)%Q.
Proof.
  intros Hne Hall. pose proof (length_positive l Hne) as Hpos.
  unfold mean. split.
  - apply Qle_shift_div_l; [assumption|].
    rewrite Qmult_comm. apply total_lower_bound. intros x Hx. now apply Hall.
  - apply Qle_shift_div_r; [assumption|].
    rewrite Qmult_comm. apply total_upper_bound. intros x Hx. now apply Hall.
Qed.

Lemma int_within_spec (bound : Z) (x : num) :
  int_within bound x = true ->
  is_int x = true /\ - bound <= int_val x <= bound.
Proof.
  unfold int_within. intros H. apply andb_prop in H. destruct H as [Hi Hb].
  apply Z.leb_le in Hb. split; [assumption|lia].
Qed.

Lemma int_within_is_int (bound : Z) (l : list num) :
  forallb (int_within bound) l = true -> forallb is_int l = true.
Proof.
  rewrite !forallb_forall. intros H x Hx.
  exact (proj1 (int_within_spec bound x (H x Hx))).
Qed.

(** [int] samples between two integers that are doubles: the division
    returns, between the two. *)
Lemma average_int_bounds (numbers : list num) (lo hi : Z) :
  forallb is_int numbers = true -> numbers <> [] ->
  (forall x, In x numbers -> lo <= int_val x <= hi) ->
  (round_nearest (inject_Z lo) == inject_Z lo)%Q ->
  (round_nearest (inject_Z hi) == inject_Z hi)%Q ->
  (- 2 ^ 1024 < inject_Z lo)%Q -> (inject_Z hi < 2 ^ 1024)%Q ->
  exists q, average numbers = Ok (Fin q)
            /\ (inject_Z lo <= q)%Q /\ (q <= inject_Z hi)%Q.
Proof.
  intros Hall Hne Hb Flo Fhi Blo Bhi.
  destruct (mean_between (inject_Z lo) (inject_Z hi) numbers Hne) as [H1 H2].
  { intros x Hx. rewrite forallb_forall in Hall.
    rewrite (rational_int x (Hall x Hx)), <- !Zle_Qle. now apply Hb. }
  now apply average_int_between.
Qed.

Lemma round_nearest_range :
  (round_nearest (inject_Z (2 ^ 1023)) == inject_Z (2 ^ 1023))%Q
  /\ (round_nearest (inject_Z (- 2 ^ 1023)) == inject_Z (- 2 ^ 1023))%Q
  /\ (- 2 ^ 1024 < inject_Z (- 2 ^ 1023))%Q
  /\ (inject_Z (2 ^ 1023) < 2 ^ 1024)%Q.
Proof. repeat split; vm_compute; reflexivity. Qed.

(** [int] samples of magnitude at most [2 ^ 1023]: no overflow. *)
Lemma average_moderate (numbers : list num) :
  forallb (int_within (2 ^ 1023)) numbers = true -> numbers <> [] ->
  exists q, average numbers = Ok (Fin q).
Proof.
  intros Hall Hne.
  destruct round_nearest_range as (F1 & F2 & B1 & B2).
  destruct (average_int_bounds numbers (- 2 ^ 1023) (2 ^ 1023)) as (q & Hq & _);
    try assumption.
  - exact (int_within_is_int _ _ Hall).
  - intros x Hx. rewrite forallb_forall in Hall.
    exact (proj2 (int_within_spec _ _ (Hall x Hx))).
  - now exists q.
Qed.

Lemma py_index_head {A : Type} (x : A) (l : list A) : py_index (x :: l) 0 = Ok x.
Proof. reflexivity. Qed.

(** *** The order of numbers *)

Lemma float_lt_le (a b : pyfloat) : float_lt a b = true -> float_le a b = true.
Proof.
  destruct a, b; cbn; try congruence.
  intros H. apply Qltb_lt in H. apply Qle_bool_iff. lra.
Qed.

Lemma float_nlt_ge (a b : pyfloat) :
  a <> NaN -> b <> NaN -> float_lt a b = false -> float_le b a = true.
Proof.
  destruct a, b; cbn; try congruence.
  intros _ _ H. apply Qltb_ge in H. now apply Qle_bool_iff.
Qed.

Lemma float_le_refl (a : pyfloat) : a <> NaN -> float_le a a = true.
Proof.
  destruct a; cbn; try congruence. intros _. apply Qle_bool_iff, Qle_refl.
Qed.

Lemma float_le_trans (a b c : pyfloat) :
  float_le a b = true -> float_le b c = true -> float_le a c = true.
Proof.
  destruct a, b, c; cbn; try congruence.
  intros H1 H2. apply Qle_bool_iff in H1, H2. apply Qle_bool_iff. lra.
Qed.

Lemma is_nan_false (x : num) : is_nan x = false -> num_val x <> NaN.
Proof. unfold is_nan. destruct (num_val x); congruence. Qed.

Lemma nan_free_cons (x : num) (l : list num) :
  nan_free (x :: l) = true -> is_nan x = false /\ nan_free l = true.
Proof.
  unfold nan_free. cbn [forallb]. intros H. apply andb_prop in H.
  destruct H as [H1 H2]. apply negb_true_iff in H1. now split.
Qed.

Lemma nan_free_In (l : list num) (x : num) :
  nan_free l = true -> In x l -> num_val x <> NaN.
Proof.
  unfold nan_free. rewrite forallb_forall. intros H Hx.
  apply is_nan_false. apply negb_true_iff. now apply H.
Qed.

Lemma is_int_not_nan (l : list num) :
  forallb is_int l = true -> nan_free l = true.
Proof.
  unfold nan_free. rewrite !forallb_forall. intros H x Hx.
  specialize (H x Hx). now destruct x.
Qed.

(** *** [max] and [min] *)

Lemma max_loop_In (rest : list num) :
  forall m0,
    In (fold_left (fun m y => if py_lt m y then y else m) rest m0) (m0 :: rest).
Proof.
  induction rest as [|y rest IH]; intros m0; cbn [fold_left]; [now left|].
  destruct (py_lt m0 y).
  - right. apply IH.
  - destruct (IH m0) as [H|H]; [left; exact H|right; right; exact H].
Qed.

Lemma min_loop_In (rest : list num) :
  forall m0,
    In (fold_left (fun m y => if py_lt y m then y else m) rest m0) (m0 :: rest).
Proof.
  induction rest as [|y rest IH]; intros m0; cbn [fold_left]; [now left|].
  destruct (py_lt y m0).
  - right. apply IH.
  - destruct (IH m0) as [H|H]; [left; exact H|right; right; exact H].
Qed.

Lemma max_loop_bound (rest : list num) :
  forall m0,
    nan_free (m0 :: rest) = true ->
    forall x, In x (m0 :: rest) ->
      py_le x (fold_left (fun m y => if py_lt m y then y else m) rest m0) = true.
Proof.
  induction rest as [|y rest IH]; intros m0 Hfree x Hx; cbn [fold_left].
  - destruct Hx as [<-|[]]. apply float_le_refl.
    apply (nan_free_In [m0]); [assumption|now left].
  - destruct (nan_free_cons _ _ Hfree) as [Hm0 Hrest].
    destruct (nan_free_cons _ _ Hrest) as [Hy Hrest'].
    assert (F0 : nan_free (m0 :: rest) = true).
    { unfold nan_free in *. cbn [forallb] in *. now rewrite Hm0, Hrest'. }
    destruct (py_lt m0 y) eqn:E.
    + destruct Hx as [<-|Hx].
      * apply float_le_trans with (num_val y).
        -- now apply float_lt_le.
        -- apply (IH y Hrest). now left.
      * apply (IH y Hrest). exact Hx.
    + destruct Hx as [<-|[<-|Hx]].
      * apply (IH m0 F0). now left.
      * apply float_le_trans with (num_val m0).
        -- apply float_nlt_ge; [now apply is_nan_false..|exact E].
        -- apply (IH m0 F0). now left.
      * apply (IH m0 F0). now right.
Qed.

Lemma min_loop_bound (rest : list num) :
  forall m0,
    nan_free (m0 :: rest) = true ->
    forall x, In x (m0 :: rest) ->
      py_le (fold_left (fun m y => if py_lt y m then y else m) rest m0) x = true.
Proof.
  induction rest as [|y rest IH]; intros m0 Hfree x Hx; cbn [fold_left].
  - destruct Hx as [<-|[]]. apply float_le_refl.
    apply (nan_free_In [m0]); [assumption|now left].
  - destruct (nan_free_cons _ _ Hfree) as [Hm0 Hrest].
    destruct (nan_free_cons _ _ Hrest) as [Hy Hrest'].
    assert (F0 : nan_free (m0 :: rest) = true).
    { unfold nan_free in *. cbn [forallb] in *. now rewrite Hm0, Hrest'. }
    destruct (py_lt y m0) eqn:E.
    + destruct Hx as [<-|Hx].
      * apply float_le_trans with (num_val y).
        -- apply (IH y Hrest). now left.
        -- now apply float_lt_le.
      * apply (IH y Hrest). exact Hx.
    + destruct Hx as [<-|[<-|Hx]].
      * apply (IH m0 F0). now left.
      * apply float_le_trans with (num_val m0).
        -- apply (IH m0 F0). now left.
        -- apply float_nlt_ge; [now apply is_nan_false..|exact E].
      * apply (IH m0 F0). now right.
Qed.

(** [max] of a non-empty list returns one of its items; without NaN,
    one that no item exceeds. *)
Lemma py_max_spec (numbers : list num) :
  numbers <> [] ->
  exists m, py_max numbers = Ok m /\ In m numbers
            /\ (nan_free numbers = true ->
                forall x, In x numbers -> py_le x m = true).
Proof.
  intros Hne. destruct numbers as [|x rest]; [congruence|].
  eexists. split; [reflexivity|]. split; [apply max_loop_In|].
  apply max_loop_bound.
Qed.

Lemma py_min_spec (numbers : list num) :
  numbers <> [] ->
  exists m, py_min numbers = Ok m /\ In m numbers
            /\ (nan_free numbers = true ->
                forall x, In x numbers -> py_le m x = true).
Proof.
  intros Hne. destruct numbers as [|x rest]; [congruence|].
  eexists. split; [reflexivity|]. split; [apply min_loop_In|].
  apply min_loop_bound.
Qed.

Lemma py_le_int (a b : num) :
  is_int a = true -> is_int b = true ->
  py_le a b = true -> int_val a <= int_val b.
Proof.
  intros Ha Hb. unfold py_le.
  destruct a, b; try discriminate; cbn [num_val float_le];
    intros H; apply Qle_bool_iff in H; now rewrite <- Zle_Qle in H.
Qed.

(** ** Endpoint selection *)

Lemma select_next_api_deep (config : Config) (numbers : list num) (depth : Z) :
  MAX_DEPTH config <= depth -> select_next_api config numbers depth = Ok None.
Proof.
  intros Hd. unfold select_next_api.
  assert (E : (MAX_DEPTH config <=? depth) = true) by (now apply Z.leb_le).
  now rewrite E.
Qed.

Lemma select_next_api_shallow (config : Config) (numbers : list num)
  (depth : Z) :
  depth < MAX_DEPTH config -> numbers <> [] ->
  select_next_api config numbers depth
  = obind (average numbers) (fun avg_value => Ok (Some (endpoint_of avg_value))).
Proof.
  intros Hd Hne. unfold select_next_api, endpoint_of.
  apply Z.leb_gt in Hd. rewrite Hd.
  destruct numbers as [|x l]; [congruence|]. cbn [orb is_empty].
  destruct (average (x :: l)) as [avg|e]; cbn [obind]; [|reflexivity].
  destruct (float_lt avg (Fin 50)); [reflexivity|].
  destruct (float_lt avg (Fin 100)); reflexivity.
Qed.

(** Below [MAX_DEPTH] the computed average picks the endpoint. *)
Lemma select_next_api_average (config : Config) (numbers : list num)
  (depth : Z) (avg : pyfloat) :
  depth < MAX_DEPTH config -> numbers <> [] ->
  average numbers = Ok avg ->
  select_next_api config numbers depth = Ok (Some (endpoint_of avg)).
Proof.
  intros Hd Hne Havg.
  now rewrite (select_next_api_shallow config numbers depth Hd Hne), Havg.
Qed.

Lemma select_next_api_Some (config : Config) (numbers : list num) (depth : Z)
  (url : string) :
  select_next_api config numbers depth = Ok (Some url) ->
  depth < MAX_DEPTH config /\ numbers <> [].
Proof.
  unfold select_next_api.
  destruct (MAX_DEPTH config <=? depth) eqn:Ed; cbn [orb]; [discriminate|].
  apply Z.leb_gt in Ed.
  destruct numbers as [|x l]; cbn [is_empty]; [discriminate|].
  intros _. split; [assumption|discriminate].
Qed.

Lemma select_next_api_None (config : Config) (numbers : list num) (depth : Z) :
  select_next_api config numbers depth = Ok None
  <-> (MAX_DEPTH config <= depth \/ numbers = []).
Proof.
  split.
  - intros H.
    destruct (Z.lt_ge_cases depth (MAX_DEPTH config)) as [Hd|Hd]; [|now left].
    destruct numbers as [|x l]; [now right|]. exfalso.
    rewrite select_next_api_shallow in H by (assumption || discriminate).
    destruct (average (x :: l)); discriminate.
  - intros [Hd| ->].
    + now apply select_next_api_deep.
    + unfold select_next_api. now rewrite orb_true_r.
Qed.

Lemma endpoint_of_registered (avg : pyfloat) :
  In (endpoint_of avg) registered_endpoints.
Proof.
  unfold endpoint_of, registered_endpoints.
  destruct (float_lt avg (Fin 50)); [now left|].
  destruct (float_lt avg (Fin 100)); [right; now left|right; right; now left].
Qed.

Lemma select_next_api_registered (config : Config) (numbers : list num)
  (depth : Z) (url : string) :
  select_next_api config numbers depth = Ok (Some url) ->
  In url registered_endpoints.
Proof.
  intros H. destruct (select_next_api_Some _ _ _ _ H) as [Hd Hne].
  rewrite (select_next_api_shallow config numbers depth Hd Hne) in H.
  destruct (average numbers) as [avg|e]; [|discriminate].
  injection H as <-. apply endpoint_of_registered.
Qed.

(** What [select_next_api] raises comes from the average. *)
Lemma select_next_api_raises (config : Config) (numbers : list num)
  (depth : Z) (e : exn) :
  select_next_api config numbers depth = Raise e ->
  e = OverflowError /\ numbers <> [] /\ average numbers = Raise e.
Proof.
  intros H.
  destruct (Z.lt_ge_cases depth (MAX_DEPTH config)) as [Hd|Hd].
  - destruct numbers as [|x l].
    + unfold select_next_api in H. rewrite orb_true_r in H. discriminate.
    + rewrite select_next_api_shallow in H by (assumption || discriminate).
      destruct (average (x :: l)) as [avg|e'] eqn:E; [discriminate|].
      injection H as <-.
      split; [apply (average_raises (x :: l)); [discriminate|assumption]|].
      split; [discriminate|reflexivity].
  - rewrite select_next_api_deep in H by assumption. discriminate.
Qed.

(** When the average returns, so does [select_next_api]. *)
Lemma select_next_api_returns (config : Config) (numbers : list num)
  (depth : Z) (avg : pyfloat) :
  average numbers = Ok avg ->
  exists next_api, select_next_api config numbers depth = Ok next_api.
Proof.
  intros Havg.
  destruct (select_next_api config numbers depth) as [next|e] eqn:E;
    [now exists next|].
  destruct (select_next_api_raises _ _ _ _ E) as (_ & _ & H). congruence.
Qed.

(** A quotient of integers below an integer stays away from it by the
    inverse of the divisor. *)
Lemma int_quotient_gap (s n c : Z) :
  0 < n <= 2 ^ 46 ->
  (inject_Z s / inject_Z n < inject_Z c)%Q ->
  (inject_Z s / inject_Z n <= inject_Z c - (1 # 70368744177664))%Q.
Proof.
  intros [Hn Hn'] Hlt.
  assert (Hpos : (0 < inject_Z n)%Q).
  { change 0%Q with (inject_Z 0). now rewrite <- Zlt_Qlt. }
  assert (Hs : s + 1 <= c * n).
  { assert (H : (inject_Z s < inject_Z c * inject_Z n)%Q).
    { apply (Qmult_lt_r _ _ (inject_Z n) Hpos) in Hlt.
      assert (E : (inject_Z s / inject_Z n * inject_Z n == inject_Z s)%Q)
        by (field; lra).
      now rewrite E in Hlt. }
    rewrite <- inject_Z_mult, <- Zlt_Qlt in H. lia. }
  apply Qle_shift_div_r; [assumption|].
  assert (H1 : (inject_Z s + 1 <= inject_Z c * inject_Z n)%Q).
  { rewrite <- inject_Z_mult. change 1%Q with (inject_Z 1).
    rewrite <- inject_Z_plus, <- Zle_Qle. exact Hs. }
  assert (H2 : (inject_Z n <= 70368744177664)%Q).
  { change 70368744177664%Q with (inject_Z (2 ^ 46)). now rewrite <- Zle_Qle. }
  lra.
Qed.

Lemma round_nearest_bands :
  (round_nearest 50 == 50)%Q /\ (round_nearest 100 == 100)%Q
  /\ (round_nearest (50 - (1 # 70368744177664)) == 50 - (1 # 70368744177664))%Q
  /\ (round_nearest (100 - (1 # 70368744177664)) == 100 - (1 # 70368744177664))%Q
  /\ (round_nearest (2 ^ 1023) == 2 ^ 1023)%Q
  /\ (round_nearest (- 2 ^ 1023) == - 2 ^ 1023)%Q.
Proof. repeat split; vm_compute; reflexivity. Qed.

Lemma double_range :
  (- 2 ^ 1024 < - 2 ^ 1023)%Q /\ (2 ^ 1023 < 2 ^ 1024)%Q
  /\ (- 2 ^ 1024 < 50)%Q /\ (- 2 ^ 1024 < 100)%Q
  /\ (50 - (1 # 70368744177664) < 2 ^ 1024)%Q
  /\ (100 - (1 # 70368744177664) < 2 ^ 1024)%Q.
Proof. repeat split; vm_compute; reflexivity. Qed.

Lemma mean_int_quotient (numbers : list num) :
  forallb is_int numbers = true ->
  (mean numbers == inject_Z (int_total numbers) / inject_Z (py_len numbers))%Q.
Proof.
  intros Hall. unfold mean, py_len. now rewrite (total_int numbers Hall).
Qed.

(** C2, with the average as it is computed: [select_next_api] answers
    [None] exactly when the depth has reached [MAX_DEPTH] or there is no
    sample; otherwise it raises [OverflowError] when
    [sum(numbers)/len(numbers)] does, and else that float picks the
    endpoint: below 50 the first, from 50 and below 100 the second, and the
    third in every other case; when the samples are [int] (or [bool]), at
    most [2 ^ 46] of them, with a mean of magnitude at most [2 ^ 1023],
    the float falls in the band of the mean: below 50 the first endpoint,
    from 50 and below 100 the second, from 100 on the third. *)
Theorem select_next_api_bands (config : Config) (numbers : list num) (depth : Z) :
  (select_next_api config numbers depth = Ok None
   <-> (MAX_DEPTH config <= depth \/ numbers = []))
  /\ (depth < MAX_DEPTH config -> numbers <> [] ->
      (forall e, average numbers = Raise e ->
         e = OverflowError
         /\ select_next_api config numbers depth = Raise OverflowError)
      /\ (forall avg, average numbers = Ok avg ->
          (float_lt avg (Fin 50) = true ->
             select_next_api config numbers depth = Ok (Some ENDPOINT_A))
          /\ (float_lt avg (Fin 50) = false -> float_lt avg (Fin 100) = true ->
             select_next_api config numbers depth = Ok (Some ENDPOINT_B))
          /\ (float_lt avg (Fin 50) = false -> float_lt avg (Fin 100) = false ->
             select_next_api config numbers depth = Ok (Some ENDPOINT_C))))
  /\ (depth < MAX_DEPTH config -> numbers <> [] ->
      forallb is_int numbers = true ->
      py_len numbers <= 2 ^ 46 ->
      (- 2 ^ 1023 <= mean numbers)%Q -> (mean numbers <= 2 ^ 1023)%Q ->
      ((mean numbers < 50)%Q ->
         select_next_api config numbers depth = Ok (Some ENDPOINT_A))
      /\ ((50 <= mean numbers)%Q -> (mean numbers < 100)%Q ->
         select_next_api config numbers depth = Ok (Some ENDPOINT_B))
      /\ ((100 <= mean numbers)%Q ->
         select_next_api config numbers depth = Ok (Some ENDPOINT_C))).
Proof.
  split; [apply select_next_api_None|]. split.
  { intros Hd Hne. split.
    - intros e He.
      pose proof (average_raises numbers e Hne He) as ->. split; [reflexivity|].
      now rewrite (select_next_api_shallow config numbers depth Hd Hne), He.
    - intros avg Havg.
      rewrite (select_next_api_average config numbers depth avg Hd Hne Havg).
      unfold endpoint_of. repeat split.
      + now intros ->.
      + now intros -> ->.
      + now intros -> ->. }
  intros Hd Hne Hall Hlen Hlo Hhi.
  destruct round_nearest_bands as (F50 & F100 & F50' & F100' & Fhi & Flo).
  destruct double_range as (Blo & Bhi & B50 & B100 & B50' & B100').
  pose proof (mean_int_quotient numbers Hall) as Hq.
  pose proof (py_len_positive numbers Hne) as Hpos.
  assert (Hgap : forall c : Z,
             (mean numbers < inject_Z c)%Q ->
             (mean numbers <= inject_Z c - (1 # 70368744177664))%Q).
  { intros c Hc. rewrite Hq in *. apply int_quotient_gap; [lia|assumption]. }
  repeat split.
  - intros H. apply (Hgap 50) in H.
    destruct (average_int_between numbers (- 2 ^ 1023)
                (50 - (1 # 70368744177664)) Hall Hne Hlo H Flo F50' Blo B50')
      as (q & Havg & _ & Hq2).
    rewrite (select_next_api_average config numbers depth (Fin q) Hd Hne Havg).
    unfold endpoint_of. cbn [float_lt].
    assert (E : Qltb q 50 = true) by (apply Qltb_lt; lra).
    now rewrite E.
  - intros H1 H2. apply (Hgap 100) in H2.
    destruct (average_int_between numbers 50
                (100 - (1 # 70368744177664)) Hall Hne H1 H2 F50 F100' B50 B100')
      as (q & Havg & Hq1 & Hq2).
    rewrite (select_next_api_average config numbers depth (Fin q) Hd Hne Havg).
    unfold endpoint_of. cbn [float_lt].
    assert (E1 : Qltb q 50 = false) by (apply Qltb_ge; lra).
    assert (E2 : Qltb q 100 = true) by (apply Qltb_lt; lra).
    now rewrite E1, E2.
  - intros H.
    destruct (average_int_between numbers 100 (2 ^ 1023) Hall Hne H Hhi
                F100 Fhi B100 Bhi)
      as (q & Havg & Hq1 & _).
    rewrite (select_next_api_average config numbers depth (Fin q) Hd Hne Havg).
    unfold endpoint_of. cbn [float_lt].
    assert (E1 : Qltb q 50 = false) by (apply Qltb_ge; lra).
    assert (E2 : Qltb q 100 = false) by (apply Qltb_ge; lra).
    now rewrite E1, E2.
Qed.

Lemma select_next_api_bands_witness :
  select_next_api default_config [NInt 10; NInt 20; NInt 80] 1
  = Ok (Some ENDPOINT_A).
Proof.
  apply (proj2 (proj2 (select_next_api_bands default_config
                         [NInt 10; NInt 20; NInt 80] 1))).
  - simpl. lia.
  - discriminate.
  - reflexivity.
  - vm_compute. discriminate.
  - vm_compute. discriminate.
  - vm_compute. discriminate.
  - reflexivity.
Defined.

(** On floats the sum is rounded at every step, and on large ints the
    division overflows: the samples [[50.0, 50.0, 49.99999999999999]] have
    a mean below 50 and an average of [50.0], which selects the second
    endpoint; the sample [10 ** 400] has a mean above 100 and no average. *)
Lemma select_next_api_bands_counterexample :
  (mean drifting_samples < 50)%Q
  /\ average drifting_samples = Ok (Fin 50)
  /\ select_next_api default_config drifting_samples 1 = Ok (Some ENDPOINT_B)
  /\ (100 <= mean [NInt (10 ^ 400)])%Q
  /\ select_next_api default_config [NInt (10 ^ 400)] 1 = Raise OverflowError.
Proof.
  split; [vm_compute; reflexivity|].
  split; [vm_compute; reflexivity|].
  split; [vm_compute; reflexivity|].
  split; [vm_compute; discriminate|].
  vm_compute; reflexivity.
Qed.

(** A mean on a band boundary falls in the upper band. *)
Example select_next_api_boundary :
  select_next_api default_config [NInt 50] 1 = Ok (Some ENDPOINT_B)
  /\ select_next_api default_config [NInt 100; NFloat (Fin 100)] 1
     = Ok (Some ENDPOINT_C)
  /\ select_next_api default_config [NInt 49; NInt 50] 1 = Ok (Some ENDPOINT_A).
Proof. repeat split; vm_compute; reflexivity. Qed.

(** The order of float samples matters: [[1e18, 300.0, -1e18]] and
    [[1e18, -1e18, 300.0]] select different endpoints. *)
Example select_next_api_float_order :
  let a := NFloat (to_double (inject_Z (10 ^ 18))) in
  let b := NFloat (to_double 300) in
  let c := NFloat (to_double (inject_Z (- 10 ^ 18))) in
  select_next_api default_config [a; b; c] 1 = Ok (Some ENDPOINT_B)
  /\ select_next_api default_config [a; c; b] 1 = Ok (Some ENDPOINT_C).
Proof. split; vm_compute; reflexivity. Qed.

(** ** The dashboard read *)

Lemma py_slice_last {A : Type} (k : nat) (l : list A) :
  py_slice_from (- Z.of_nat (S k)) l = skipn (List.length l - S k) l.
Proof.
  unfold py_slice_from, py_len.
  assert (E : (- Z.of_nat (S k) <? 0) = true) by (apply Z.ltb_lt; lia).
  rewrite E. f_equal. lia.
Qed.

(** C9: a dashboard read, through [GET /] or [GET /api/latest], returns at
    most 20 rows, and they are the most recent rows of [dashboard_data],
    the newest first. *)
Theorem dashboard_latest_twenty (w : World) :
  (List.length (dashboard w) <= 20)%nat
  /\ List.length (dashboard w) = Nat.min 20 (List.length (dashboard_data w))
  /\ dashboard w = firstn 20 (rev (dashboard_data w))
  /\ api_latest w = dashboard w.
Proof.
  assert (E : dashboard w = firstn 20 (rev (dashboard_data w))).
  { unfold dashboard, py_reversed.
    change (-20) with (- Z.of_nat 20).
    now rewrite py_slice_last, firstn_rev. }
  repeat split.
  - rewrite E, length_firstn. lia.
  - now rewrite E, length_firstn, length_rev.
  - exact E.
Qed.

(** ** One iteration *)

Arguments py_max : simpl never.
Arguments py_min : simpl never.
Arguments py_sum : simpl never.
Arguments py_truediv : simpl never.
Arguments average : simpl never.
Arguments py_round2 : simpl never.
Arguments py_ge : simpl never.
Arguments select_next_api : simpl never.
Arguments find_numbers : simpl never.

Lemma advance_advance (w : World) rows1 evs1 n1 rows2 evs2 n2 :
  advance (advance w rows1 evs1 n1) rows2 evs2 n2
  = advance w (rows1 ++ rows2) (evs1 ++ evs2) (n2 + n1).
Proof.
  unfold advance; simpl. rewrite <- !app_assoc. f_equal. lia.
Qed.

Lemma advance_intro (w : World) rows evs n d t c :
  d = dashboard_data w ++ rows -> t = trace w ++ evs -> c = (n + clock w)%nat ->
  {| dashboard_data := d; trace := t; clock := c |} = advance w rows evs n.
Proof. intros -> -> ->. reflexivity. Qed.

Lemma bind_ok {A B : Type} {m : M A} (k : A -> M B) {w w1 : World} {a : A} :
  m w = (Ok a, w1) -> bind m k w = k a w1.
Proof. unfold bind. now intros ->. Qed.

Lemma bind_raise {A B : Type} {m : M A} (k : A -> M B) {w w1 : World} {e : exn} :
  m w = (Raise e, w1) -> bind m k w = (Raise e, w1).
Proof. unfold bind. now intros ->. Qed.

Lemma bind_assoc {A B C : Type} (m : M A) (k1 : A -> M B) (k2 : B -> M C)
  (w : World) :
  bind (bind m k1) k2 w = bind m (fun a => bind (k1 a) k2) w.
Proof. unfold bind. destruct (m w) as [[a|e] w']; reflexivity. Qed.

Ltac world_eq :=
  apply advance_intro; simpl; rewrite <- ?app_assoc, ?app_nil_r; auto.

Lemma tick_advance (w : World) : tick w = (Ok (clock w), advance w [] [] 1).
Proof. unfold tick. f_equal. world_eq. Qed.

Lemma emit_advance (e : event) (w : World) :
  emit e w = (Ok tt, advance w [] [e] 0).
Proof. unfold emit. f_equal. world_eq. Qed.

Lemma dashboard_append_advance (row : WorkflowRecord) (w : World) :
  dashboard_append row w = (Ok tt, advance w [row] [] 0).
Proof. unfold dashboard_append. f_equal. world_eq. Qed.

Section Iteration.

Variable env : Environment.
Variable config : Config.
Variable gs_sheet : bool.

Ltac unfold_io :=
  unfold fetch_data, http_get, raise_for_status, send_email, send_slack,
    update_google_sheet, try_except, logging, datetime_now,
    dashboard_append, bind, tick, emit, lift, ret.

(** *** The fetch *)

Lemma fetch_data_success (api_url : string) (w : World) (r : Response)
  (data : json) :
  session_get env (clock w) api_url = Ok r ->
  status_ok r = true ->
  json_body r = Ok data ->
  fetch_data env api_url w
  = (Ok data, advance w [] [EvGet api_url; EvLog INFO] 1).
Proof.
  intros Hget Hst Hbody. unfold_io. simpl.
  rewrite Hget, Hst. simpl. rewrite Hbody. f_equal. world_eq.
Qed.

Lemma fetch_data_failure (api_url : string) (w : World) :
  fetch_failure (session_get env (clock w) api_url) ->
  exists pre,
    (pre = [] \/ pre = [EvLog INFO])
    /\ fetch_data env api_url w
       = (Ok JNull,
          advance w [error_row (S (clock w)) api_url]
            (EvGet api_url :: pre ++ [EvLog ERROR]) 2).
Proof.
  intros [Hget|r Hget Hst|r Hget Hst Hbody].
  - exists []. split; [now left|]. unfold_io. simpl. rewrite Hget. simpl.
    f_equal. world_eq.
  - exists []. split; [now left|]. unfold_io. simpl. rewrite Hget, Hst. simpl.
    f_equal. world_eq.
  - exists [EvLog INFO]. split; [now right|]. unfold_io. simpl.
    rewrite Hget, Hst. simpl. rewrite Hbody. simpl. f_equal. world_eq.
Qed.

(** An exception of another class is not handled by [fetch_data]. *)
Lemma fetch_data_escapes (api_url : string) (w : World) (e : exn) :
  is_RequestException e = false ->
  (session_get env (clock w) api_url = Raise e ->
   fetch_data env api_url w = (Raise e, advance w [] [EvGet api_url] 1))
  /\ (forall r, session_get env (clock w) api_url = Ok r ->
      status_ok r = true -> json_body r = Raise e ->
      fetch_data env api_url w
      = (Raise e, advance w [] [EvGet api_url; EvLog INFO] 1)).
Proof.
  intros He. split.
  - intros Hget. unfold_io. simpl. rewrite Hget, He. f_equal. world_eq.
  - intros r Hget Hst Hbody. unfold_io. simpl. rewrite Hget, Hst. simpl.
    rewrite Hbody, He. f_equal. world_eq.
Qed.

(** Every outcome of the oracle falls under one of the cases above. *)
Lemma fetch_outcome_cases (o : outcome Response) :
  fetch_failure o
  \/ (exists r data, o = Ok r /\ status_ok r = true /\ json_body r = Ok data)
  \/ (exists e, is_RequestException e = false
                /\ (o = Raise e
                    \/ exists r, o = Ok r /\ status_ok r = true
                                 /\ json_body r = Raise e)).
Proof.
  destruct o as [r|e].
  - destruct (status_ok r) eqn:Hst.
    + destruct (json_body r) as [data|e] eqn:Hbody.
      * right. left. now exists r, data.
      * destruct (is_RequestException e) eqn:He.
        -- left. destruct e; try discriminate.
           now apply invalid_body with r.
        -- right. right. exists e. split; [assumption|]. right. now exists r.
    + left. now apply error_status with r.
  - destruct (is_RequestException e) eqn:He.
    + left. destruct e; try discriminate. now apply connection_failed.
    + right. right. exists e. split; [assumption|]. now left.
Qed.

(** *** The sinks *)

Lemma send_email_returns (v : cell) (w : World) :
  send_email env v w
  = (Ok tt, advance w [] [EvSmtp v; EvLog (sink_level (smtp_send env (clock w) v))] 1).
Proof.
  unfold_io. simpl. destruct (smtp_send env (clock w) v); simpl;
    f_equal; world_eq.
Qed.

Lemma send_slack_returns (v : cell) (w : World) :
  (forall e, session_post env (clock w) v = Raise e ->
             is_RequestException e = true) ->
  send_slack env v w
  = (Ok tt, advance w [] [EvPost v; EvLog (sink_level (session_post env (clock w) v))] 1).
Proof.
  intros Hcaught. unfold_io. simpl.
  destruct (session_post env (clock w) v) as [[]|e]; simpl.
  - f_equal. world_eq.
  - rewrite (Hcaught e eq_refl). f_equal. world_eq.
Qed.

Lemma send_slack_escapes (v : cell) (w : World) (e : exn) :
  session_post env (clock w) v = Raise e ->
  is_RequestException e = false ->
  send_slack env v w = (Raise e, advance w [] [EvPost v] 1).
Proof.
  intros Hpost He. unfold_io. simpl. rewrite Hpost, He. f_equal. world_eq.
Qed.

Lemma update_google_sheet_returns (v : cell) (w : World) :
  update_google_sheet env gs_sheet v w
  = (Ok tt,
     if gs_sheet
     then advance w []
            [EvAppendRow v (clock w);
             EvLog (sink_level (append_row env (S (clock w)) v))] 2
     else w).
Proof.
  unfold_io. destruct gs_sheet; [|reflexivity]. simpl.
  destruct (append_row env (S (clock w)) v); simpl; f_equal; world_eq.
Qed.

(** *** The paths of [workflow_step] *)

(** One monadic step of an iteration whose fetch and samples are known. *)
Ltac mrun1 :=
  rewrite ?bind_assoc;
  match goal with
  | |- context [bind (ret ?a) ?k ?w] =>
      change (bind (ret a) k w) with (k a w)
  | |- context [bind (lift (Ok ?a)) ?k ?w] =>
      change (bind (lift (Ok a)) k w) with (k a w)
  | |- context [bind tick ?k ?w] => rewrite (bind_ok k (tick_advance w))
  | |- context [bind (emit ?e) ?k ?w] => rewrite (bind_ok k (emit_advance e w))
  | |- context [bind (dashboard_append ?row) ?k ?w] =>
      rewrite (bind_ok k (dashboard_append_advance row w))
  | |- context [bind (send_email _ ?v) ?k ?w] =>
      rewrite (bind_ok k (send_email_returns v w))
  | |- context [bind (update_google_sheet _ _ ?v) ?k ?w] =>
      rewrite (bind_ok k (update_google_sheet_returns v w))
  end;
  cbv beta iota.

Ltac mrun := unfold datetime_now, logging; repeat mrun1.

Lemma select_next_api_no_samples (depth : Z) :
  select_next_api config [] depth = Ok None.
Proof. unfold select_next_api. now rewrite orb_true_r. Qed.

Lemma find_numbers_not_None (data : json) (n : num) (rest : list num) :
  find_numbers data = n :: rest -> is_None data = false.
Proof. destruct data; try reflexivity. discriminate. Qed.

(** A failed fetch: the error row, and the iteration is over. *)
Lemma step_fetch_failure (api_url : string) (depth : Z) (w : World) :
  fetch_failure (session_get env (clock w) api_url) ->
  exists pre,
    (pre = [] \/ pre = [EvLog INFO])
    /\ workflow_step env config gs_sheet api_url depth w
       = (Ok Stop,
          advance w [error_row (S (clock w)) api_url]
            (EvGet api_url :: pre ++ [EvLog ERROR]) 2).
Proof.
  intros H. destruct (fetch_data_failure api_url w H) as (pre & Hpre & Hf).
  exists pre. split; [assumption|].
  unfold workflow_step. now rewrite (bind_ok _ Hf).
Qed.

(** A body that decodes to [None]: no row at all. *)
Lemma step_null_body (api_url : string) (depth : Z) (w : World) (r : Response) :
  session_get env (clock w) api_url = Ok r ->
  status_ok r = true ->
  json_body r = Ok JNull ->
  workflow_step env config gs_sheet api_url depth w
  = (Ok Stop, advance w [] [EvGet api_url; EvLog INFO] 1).
Proof.
  intros Hget Hst Hbody. unfold workflow_step.
  now rewrite (bind_ok _ (fetch_data_success _ _ _ _ Hget Hst Hbody)).
Qed.

Lemma step_fetch_escapes (api_url : string) (depth : Z) (w : World) (e : exn) :
  is_RequestException e = false ->
  (session_get env (clock w) api_url = Raise e ->
   workflow_step env config gs_sheet api_url depth w
   = (Raise e, advance w [] [EvGet api_url] 1))
  /\ (forall r, session_get env (clock w) api_url = Ok r ->
      status_ok r = true -> json_body r = Raise e ->
      workflow_step env config gs_sheet api_url depth w
      = (Raise e, advance w [] [EvGet api_url; EvLog INFO] 1)).
Proof.
  intros He. destruct (fetch_data_escapes api_url w e He) as [H1 H2]. split.
  - intros Hget. unfold workflow_step. now rewrite (bind_raise _ (H1 Hget)).
  - intros r Hget Hst Hbody. unfold workflow_step.
    now rewrite (bind_raise _ (H2 r Hget Hst Hbody)).
Qed.

(** A payload other than [None] without samples. *)
Lemma step_no_samples (api_url : string) (depth : Z) (w : World)
  (r : Response) (data : json) :
  session_get env (clock w) api_url = Ok r ->
  status_ok r = true ->
  json_body r = Ok data ->
  is_None data = false ->
  find_numbers data = [] ->
  workflow_step env config gs_sheet api_url depth w
  = (Ok (Continue None),
     advance w [empty_row (S (clock w)) api_url]
       [EvGet api_url; EvLog INFO; EvSelect [] (depth + 1)] 2).
Proof.
  intros Hget Hst Hbody Hnone Hnum. unfold workflow_step.
  rewrite (bind_ok _ (fetch_data_success _ _ _ _ Hget Hst Hbody)).
  rewrite Hnone, Hnum, select_next_api_no_samples. cbn [is_empty negb].
  mrun. rewrite !advance_advance. reflexivity.
Qed.

(** Samples, and the webhook call lets an exception through: the
    iteration is abandoned after [send_slack]. *)
Lemma step_slack_escapes (api_url : string) (depth : Z) (w : World)
  (r : Response) (data : json) (n : num) (rest : list num) (avg : pyfloat)
  (e : exn) :
  session_get env (clock w) api_url = Ok r ->
  status_ok r = true ->
  json_body r = Ok data ->
  find_numbers data = n :: rest ->
  average (n :: rest) = Ok avg ->
  session_post env (S (S (clock w))) (CNum n) = Raise e ->
  is_RequestException e = false ->
  workflow_step env config gs_sheet api_url depth w
  = (Raise e,
     advance w []
       [EvGet api_url; EvLog INFO; EvSmtp (CNum n);
        EvLog (sink_level (smtp_send env (S (clock w)) (CNum n)));
        EvPost (CNum n)] 3).
Proof.
  intros Hget Hst Hbody Hnum Havg Hpost He.
  assert (Hne : n :: rest <> []) by discriminate.
  destruct (py_max_spec (n :: rest) Hne) as (mx & Hmx & _).
  destruct (py_min_spec (n :: rest) Hne) as (mn & Hmn & _).
  unfold workflow_step.
  rewrite (bind_ok _ (fetch_data_success _ _ _ _ Hget Hst Hbody)).
  rewrite (find_numbers_not_None _ _ _ Hnum), Hnum.
  cbn [is_empty negb]. rewrite py_index_head, Hmx, Hmn, Havg.
  mrun. rewrite ?bind_assoc.
  match goal with
  | |- context [bind (send_slack _ ?v) ?k ?w0] =>
      rewrite (bind_raise k (send_slack_escapes v w0 e Hpost He))
  end.
  rewrite !advance_advance. reflexivity.
Qed.

(** Samples whose average overflows: the iteration is abandoned before
    the sinks. *)
Lemma step_average_raises (api_url : string) (depth : Z) (w : World)
  (r : Response) (data : json) (n : num) (rest : list num) (e : exn) :
  session_get env (clock w) api_url = Ok r ->
  status_ok r = true ->
  json_body r = Ok data ->
  find_numbers data = n :: rest ->
  average (n :: rest) = Raise e ->
  workflow_step env config gs_sheet api_url depth w
  = (Raise e, advance w [] [EvGet api_url; EvLog INFO] 1).
Proof.
  intros Hget Hst Hbody Hnum Havg.
  assert (Hne : n :: rest <> []) by discriminate.
  destruct (py_max_spec (n :: rest) Hne) as (mx & Hmx & _).
  destruct (py_min_spec (n :: rest) Hne) as (mn & Hmn & _).
  unfold workflow_step.
  rewrite (bind_ok _ (fetch_data_success _ _ _ _ Hget Hst Hbody)).
  rewrite (find_numbers_not_None _ _ _ Hnum), Hnum.
  cbn [is_empty negb]. rewrite py_index_head, Hmx, Hmn, Havg.
  mrun. reflexivity.
Qed.

(** Samples, and every sink returns. *)
Lemma step_samples (api_url : string) (depth : Z) (w : World)
  (r : Response) (data : json) (n : num) (rest : list num) (avg : pyfloat) :
  session_get env (clock w) api_url = Ok r ->
  status_ok r = true ->
  json_body r = Ok data ->
  find_numbers data = n :: rest ->
  average (n :: rest) = Ok avg ->
  (forall e, session_post env (S (S (clock w))) (CNum n) = Raise e ->
             is_RequestException e = true) ->
  exists mx mn next evs ticks,
    py_max (n :: rest) = Ok mx
    /\ py_min (n :: rest) = Ok mn
    /\ select_next_api config (n :: rest) (depth + 1) = Ok next
    /\ workflow_step env config gs_sheet api_url depth w
       = (Ok (Continue next),
          advance w [sample_row config (ticks + clock w) api_url n mx mn avg]
            evs (S ticks))
    /\ filter is_sink_call evs
       = EvSmtp (CNum n) :: EvPost (CNum n)
           :: (if gs_sheet then [EvAppendRow (CNum n) (3 + clock w)] else [])
    /\ filter is_select_call evs = [EvSelect (n :: rest) (depth + 1)]
    /\ entered evs = []
    /\ (In (EvLog WARNING) evs
        <-> py_le (NInt (ALERT_THRESHOLD config)) n = true)
    /\ fetched evs = [api_url].
Proof.
  intros Hget Hst Hbody Hnum Havg Hpost.
  assert (Hne : n :: rest <> []) by discriminate.
  destruct (py_max_spec (n :: rest) Hne) as (mx & Hmx & _).
  destruct (py_min_spec (n :: rest) Hne) as (mn & Hmn & _).
  destruct (select_next_api_returns config (n :: rest) (depth + 1) avg Havg)
    as (next & Hnext).
  exists mx, mn, next.
  unfold workflow_step.
  rewrite (bind_ok _ (fetch_data_success _ _ _ _ Hget Hst Hbody)).
  rewrite (find_numbers_not_None _ _ _ Hnum), Hnum.
  cbn [is_empty negb]. rewrite py_index_head, Hmx, Hmn, Havg, Hnext.
  mrun. rewrite ?bind_assoc.
  match goal with
  | |- context [bind (send_slack _ ?v) ?k ?w0] =>
      rewrite (bind_ok k (send_slack_returns v w0 Hpost))
  end.
  cbn [py_ne_str]. unfold py_ge, sample_row. mrun.
  set (lvl1 := sink_level (smtp_send env _ _)).
  set (lvl2 := sink_level (session_post env _ _)).
  set (lvl3 := sink_level (append_row env _ _)).
  assert (Hl1 : lvl1 <> WARNING)
    by (subst lvl1; destruct (smtp_send env _ _); discriminate).
  assert (Hl2 : lvl2 <> WARNING)
    by (subst lvl2; destruct (session_post env _ _); discriminate).
  assert (Hl3 : lvl3 <> WARNING)
    by (subst lvl3; destruct (append_row env _ _); discriminate).
  clearbody lvl1 lvl2 lvl3.
  destruct (py_le (NInt (ALERT_THRESHOLD config)) n);
    destruct gs_sheet;
    mrun; unfold ret; rewrite !advance_advance; cbn [clock advance app Nat.add];
    (eexists;
     first [ exists 5%nat; do 4 (split; [reflexivity|])
           | exists 3%nat; do 4 (split; [reflexivity|]) ]);
    simpl; intuition (try discriminate; try congruence).
Qed.

End Iteration.

(** ** Runs *)

Lemma entered_app (t1 t2 : list event) :
  entered (t1 ++ t2) = entered t1 ++ entered t2.
Proof.
  induction t1 as [|e t1 IH]; simpl; [reflexivity|].
  destruct e; simpl; now rewrite IH.
Qed.

Lemma counts_from_lower_bound (l : list Z) (d : Z) :
  counts_from d l -> Forall (fun x => d <= x) l.
Proof.
  revert d. induction l as [|x l IH]; intros d; simpl; [constructor|].
  intros [-> H]. constructor; [lia|].
  eapply Forall_impl; [|apply (IH _ H)]. simpl. intros; lia.
Qed.

Lemma counts_from_sorted (l : list Z) (d : Z) :
  counts_from d l -> StronglySorted Z.le l.
Proof.
  revert d. induction l as [|x l IH]; intros d; simpl; [constructor|].
  intros [-> H]. constructor; [now apply (IH (d + 1))|].
  eapply Forall_impl; [|apply (counts_from_lower_bound _ _ H)].
  simpl. intros; lia.
Qed.

Section Runs.

Variable env : Environment.
Variable config : Config.
Variable gs_sheet : bool.

(** Whatever the collaborators do, an iteration appends at most one row,
    does not enter [recursive_workflow], and asks for a next endpoint
    only below [MAX_DEPTH]; what it raises was raised by the data source
    or the webhook, or is the [OverflowError] of the average. *)
Lemma step_frame (api_url : string) (depth : Z) (w : World) :
  exists result rows evs n,
    workflow_step env config gs_sheet api_url depth w
    = (result, advance w rows evs n)
    /\ (List.length rows <= 1)%nat
    /\ entered evs = []
    /\ (forall next, result = Ok (Continue (Some next)) ->
                     depth + 1 < MAX_DEPTH config)
    /\ (forall e, result = Raise e ->
          (is_RequestException e = false
           /\ (session_get env (clock w) api_url = Raise e
               \/ (exists r, session_get env (clock w) api_url = Ok r
                             /\ json_body r = Raise e)
               \/ (exists v, session_post env (S (S (clock w))) v = Raise e)))
          \/ (e = OverflowError
              /\ exists r data,
                   session_get env (clock w) api_url = Ok r
                   /\ json_body r = Ok data
                   /\ average (find_numbers data) = Raise e)).
Proof.
  destruct (fetch_outcome_cases (session_get env (clock w) api_url))
    as [Hfail|[(r & data & Hget & Hst & Hbody)|(e & He & Hesc)]].
  - destruct (step_fetch_failure env config gs_sheet api_url depth w Hfail)
      as (pre & Hpre & ->).
    do 4 eexists. split; [reflexivity|]. repeat split; try discriminate.
    + simpl. lia.
    + destruct Hpre as [-> | ->]; reflexivity.
  - destruct (is_None data) eqn:Hnone.
    { destruct data; try discriminate.
      rewrite (step_null_body env config gs_sheet api_url depth w r Hget Hst Hbody).
      do 4 eexists. split; [reflexivity|]. repeat split; try discriminate.
      simpl. lia. }
    destruct (find_numbers data) as [|n rest] eqn:Hnum.
    { rewrite (step_no_samples env config gs_sheet api_url depth w r data
                 Hget Hst Hbody Hnone Hnum).
      do 4 eexists. split; [reflexivity|]. repeat split; try discriminate.
      simpl. lia. }
    destruct (average (n :: rest)) as [avg|e] eqn:Havg.
    2:{ rewrite (step_average_raises env config gs_sheet api_url depth w r data
                   n rest e Hget Hst Hbody Hnum Havg).
        do 4 eexists. split; [reflexivity|].
        split; [simpl; lia|]. split; [reflexivity|].
        split; [discriminate|].
        intros e' He'. injection He' as <-. right.
        split; [apply (average_raises (n :: rest)); [discriminate|assumption]|].
        exists r, data. rewrite Hnum. now repeat split. }
    destruct (session_post env (S (S (clock w))) (CNum n)) as [[]|e] eqn:Hpost.
    + destruct (step_samples env config gs_sheet api_url depth w r data n rest
                  avg Hget Hst Hbody Hnum Havg)
        as (mx & mn & next & evs & ticks & _ & _ & Hnext & -> & _ & _ & Hent & _).
      { intros e He. congruence. }
      do 4 eexists. split; [reflexivity|]. repeat split; try discriminate.
      * simpl. lia.
      * exact Hent.
      * intros u Hu. injection Hu as ->.
        now apply select_next_api_Some in Hnext.
    + destruct (is_RequestException e) eqn:He.
      * destruct (step_samples env config gs_sheet api_url depth w r data n rest
                    avg Hget Hst Hbody Hnum Havg)
          as (mx & mn & next & evs & ticks & _ & _ & Hnext & -> & _ & _ & Hent & _).
        { intros e' He'. congruence. }
        do 4 eexists. split; [reflexivity|]. repeat split; try discriminate.
        -- simpl. lia.
        -- exact Hent.
        -- intros u Hu. injection Hu as ->.
           now apply select_next_api_Some in Hnext.
      * rewrite (step_slack_escapes env config gs_sheet api_url depth w r data
                   n rest avg e Hget Hst Hbody Hnum Havg Hpost He).
        do 4 eexists. split; [reflexivity|].
        split; [simpl; lia|]. split; [reflexivity|].
        split; [discriminate|].
        intros e' He'. injection He' as <-. left. split; [assumption|].
        right. right. now exists (CNum n).
  - destruct (step_fetch_escapes env config gs_sheet api_url depth w e He)
      as [H1 H2].
    destruct Hesc as [Hget|(r & Hget & Hst & Hbody)].
    + rewrite (H1 Hget). do 4 eexists. split; [reflexivity|].
      split; [simpl; lia|]. split; [reflexivity|].
      split; [discriminate|].
      intros e' He'. injection He' as <-. left. split; [assumption|]. now left.
    + rewrite (H2 r Hget Hst Hbody). do 4 eexists. split; [reflexivity|].
      split; [simpl; lia|]. split; [reflexivity|].
      split; [discriminate|].
      intros e' He'. injection He' as <-. left. split; [assumption|].
      right. left. now exists r.
Qed.

(** A fetch that fails, and a fetch that delivers a payload other than
    [None] whose average, if it has samples, does not overflow, while the
    webhook call raises request errors only, append exactly one row. *)
Lemma one_row_per_fetch (api_url : string) (depth : Z) (w : World) :
  fetch_failure (session_get env (clock w) api_url)
  \/ (exists r data,
         session_get env (clock w) api_url = Ok r /\ status_ok r = true
         /\ json_body r = Ok data /\ is_None data = false
         /\ (find_numbers data = []
             \/ exists avg, average (find_numbers data) = Ok avg)
         /\ forall v e, session_post env (S (S (clock w))) v = Raise e ->
                        is_RequestException e = true) ->
  exists result row evs n,
    workflow_step env config gs_sheet api_url depth w
    = (Ok result, advance w [row] evs n).
Proof.
  intros [Hfail|(r & data & Hget & Hst & Hbody & Hnone & Havg & Hpost)].
  - destruct (step_fetch_failure env config gs_sheet api_url depth w Hfail)
      as (pre & _ & ->).
    now do 4 eexists.
  - destruct (find_numbers data) as [|n rest] eqn:Hnum.
    + rewrite (step_no_samples env config gs_sheet api_url depth w r data
                 Hget Hst Hbody Hnone Hnum).
      now do 4 eexists.
    + destruct Havg as [Hempty|(avg & Havg)]; [discriminate|].
      destruct (step_samples env config gs_sheet api_url depth w r data n rest
                  avg Hget Hst Hbody Hnum Havg (Hpost (CNum n)))
        as (mx & mn & next & evs & ticks & _ & _ & _ & -> & _).
      now do 4 eexists.
Qed.

(** One unfolding of the recursion. *)
Lemma recursive_workflow_unfold (fuel : nat) (api_url : string) (depth : Z)
  (w : World) :
  recursive_workflow env config gs_sheet (S fuel) (Some api_url) depth w
  = match workflow_step env config gs_sheet api_url depth
            (advance w [] [EvEnter depth] 0) with
    | (Raise e, w1) => Some (Raise e, w1)
    | (Ok Stop, w1) => Some (Ok tt, w1)
    | (Ok (Continue next_api), w1) =>
        recursive_workflow env config gs_sheet fuel next_api (depth + 1) w1
    end.
Proof. cbn [recursive_workflow]. now rewrite emit_advance. Qed.

Lemma recursive_workflow_end (fuel : nat) (depth : Z) (w : World) :
  recursive_workflow env config gs_sheet (S fuel) None depth w
  = Some (Ok tt, advance w [] [EvEnter depth; EvLog INFO] 0).
Proof.
  cbn [recursive_workflow]. rewrite emit_advance. unfold logging.
  rewrite emit_advance, advance_advance. reflexivity.
Qed.

(** With enough fuel a call returns; it appends at most as many rows as
    there are depths left, and the depths it is entered at count upwards
    to the bound at most. *)
Lemma recursive_workflow_bounded (fuel : nat) :
  forall (api_url : option string) (depth : Z) (w : World),
    let bound := Z.max 1 (MAX_DEPTH config) in
    depth <= bound ->
    (api_url <> None -> depth < bound) ->
    (Z.to_nat (bound - depth) < fuel)%nat ->
    exists result rows evs n,
      recursive_workflow env config gs_sheet fuel api_url depth w
      = Some (result, advance w rows evs n)
      /\ Z.of_nat (List.length rows) <= bound - depth
      /\ counts_from depth (entered evs)
      /\ Forall (fun d => d <= bound) (entered evs).
Proof.
  induction fuel as [|fuel IH]; intros api_url depth w bound Hle Hlt Hfuel;
    [lia|].
  destruct api_url as [url|].
  - assert (Hd : depth < bound) by (apply Hlt; discriminate).
    rewrite recursive_workflow_unfold.
    destruct (step_frame url depth (advance w [] [EvEnter depth] 0))
      as (result & rows & evs & n & -> & Hrows & Hent & Hnext & _).
    rewrite advance_advance.
    destruct result as [[|next]|e].
    + do 4 eexists. split; [reflexivity|]. cbn [app entered]. rewrite Hent.
      split; [lia|]. simpl. split; [tauto|]. constructor; [lia|constructor].
    + destruct (IH next (depth + 1)
                  (advance w ([] ++ rows) ([EvEnter depth] ++ evs) (n + 0)))
        as (result' & rows' & evs' & n' & -> & Hrows' & Hcount & Hall).
      * fold bound. lia.
      * fold bound. intros Hsome. destruct next as [u|]; [|congruence].
        specialize (Hnext u eq_refl). lia.
      * fold bound. lia.
      * rewrite advance_advance. do 4 eexists. split; [reflexivity|].
        fold bound in Hrows', Hall.
        split; [|split].
        -- cbn [app]. rewrite length_app. lia.
        -- cbn [app entered]. rewrite entered_app, Hent. simpl. tauto.
        -- cbn [app entered]. rewrite entered_app, Hent. simpl.
           constructor; [lia|assumption].
    + do 4 eexists. split; [reflexivity|]. cbn [app entered]. rewrite Hent.
      split; [lia|]. simpl. split; [tauto|]. constructor; [lia|constructor].
  - rewrite recursive_workflow_end.
    do 4 eexists. split; [reflexivity|]. simpl.
    split; [lia|]. split; [tauto|]. constructor; [lia|constructor].
Qed.

(** More fuel does not change the result of a call that returns. *)
Lemma recursive_workflow_more_fuel (fuel : nat) :
  forall (api_url : option string) (depth : Z) (w : World) res,
    recursive_workflow env config gs_sheet fuel api_url depth w = Some res ->
    recursive_workflow env config gs_sheet (S fuel) api_url depth w = Some res.
Proof.
  induction fuel as [|fuel IH]; intros api_url depth w res Hres;
    [discriminate|].
  destruct api_url as [url|].
  - rewrite recursive_workflow_unfold in *.
    destruct (workflow_step env config gs_sheet url depth
                (advance w [] [EvEnter depth] 0)) as [[[|next]|e] w1];
      try assumption.
    now apply IH.
  - now rewrite recursive_workflow_end in *.
Qed.

Lemma recursive_workflow_fuel_le (fuel fuel' : nat) :
  (fuel <= fuel')%nat ->
  forall (api_url : option string) (depth : Z) (w : World) res,
    recursive_workflow env config gs_sheet fuel api_url depth w = Some res ->
    recursive_workflow env config gs_sheet fuel' api_url depth w = Some res.
Proof.
  induction 1 as [|fuel' _ IH]; intros api_url depth w res Hres;
    [assumption|].
  now apply recursive_workflow_more_fuel, IH.
Qed.

(** A failed fetch ends the call it happens in. *)
Lemma recursive_workflow_failed_fetch (fuel : nat) (api_url : string)
  (depth : Z) (w : World) :
  fetch_failure (session_get env (clock w) api_url) ->
  exists pre,
    (pre = [] \/ pre = [EvLog INFO])
    /\ recursive_workflow env config gs_sheet (S fuel) (Some api_url) depth w
       = Some (Ok tt,
               advance w [error_row (S (clock w)) api_url]
                 (EvEnter depth :: EvGet api_url :: pre ++ [EvLog ERROR]) 2).
Proof.
  intros Hfail. rewrite recursive_workflow_unfold.
  destruct (step_fetch_failure env config gs_sheet api_url depth
              (advance w [] [EvEnter depth] 0) Hfail) as (pre & Hpre & ->).
  exists pre. split; [assumption|]. now rewrite advance_advance.
Qed.

End Runs.

(** ** An iteration with samples *)

(** X9: when the average of the samples does not overflow and the webhook
    call raises nothing but request errors, an iteration with samples
    records the first sample, the results of [max] and [min], which are
    samples and, without NaN, bound all samples, and the average rounded
    by [round(_, 2)]; it calls the three sinks with the first sample, and
    records [ALERTE] exactly from the threshold on. *)
Lemma samples_iteration (env : Environment) (config : Config) (gs_sheet : bool)
  (api_url : string) (depth : Z) (w : World) (r : Response) (data : json)
  (n : num) (rest : list num) (avg : pyfloat) :
  session_get env (clock w) api_url = Ok r ->
  status_ok r = true ->
  json_body r = Ok data ->
  find_numbers data = n :: rest ->
  average (n :: rest) = Ok avg ->
  (forall e, session_post env (S (S (clock w))) (CNum n) = Raise e ->
             is_RequestException e = true) ->
  exists row next evs ticks mx mn,
    workflow_step env config gs_sheet api_url depth w
    = (Ok (Continue next), advance w [row] evs ticks)
    /\ value row = CNum n
    /\ max_value row = CNum mx /\ py_max (n :: rest) = Ok mx
    /\ In mx (n :: rest)
    /\ min_value row = CNum mn /\ py_min (n :: rest) = Ok mn
    /\ In mn (n :: rest)
    /\ (nan_free (n :: rest) = true ->
        forall x, In x (n :: rest) -> py_le mn x = true /\ py_le x mx = true)
    /\ avg_value row = CNum (NFloat (py_round2 avg))
    /\ filter is_sink_call evs
       = EvSmtp (CNum n) :: EvPost (CNum n)
           :: (if gs_sheet then [EvAppendRow (CNum n) (3 + clock w)] else [])
    /\ (status row = "ALERTE"
        <-> py_le (NInt (ALERT_THRESHOLD config)) n = true)
    /\ (status row = "OK"
        <-> py_le (NInt (ALERT_THRESHOLD config)) n = false)
    /\ select_next_api config (n :: rest) (depth + 1) = Ok next.
Proof.
  intros Hget Hst Hbody Hnum Havg Hpost.
  assert (Hne : n :: rest <> []) by discriminate.
  destruct (step_samples env config gs_sheet api_url depth w r data n rest avg
              Hget Hst Hbody Hnum Havg Hpost)
    as (mx & mn & next & evs & ticks
        & Hmx & Hmn & Hnext & Hstep & Hsinks & _).
  destruct (py_max_spec (n :: rest) Hne) as (mx' & Hmx' & Hmxin & Hmxle).
  destruct (py_min_spec (n :: rest) Hne) as (mn' & Hmn' & Hmnin & Hmnle).
  assert (mx' = mx) by congruence. assert (mn' = mn) by congruence.
  subst mx' mn'.
  exists (sample_row config (ticks + clock w) api_url n mx mn avg), next, evs,
    (S ticks), mx, mn.
  split; [exact Hstep|].
  do 7 (split; [first [reflexivity | assumption]|]).
  split; [intros Hfree x Hx; split; [now apply Hmnle|now apply Hmxle]|].
  do 2 (split; [first [reflexivity | assumption]|]).
  unfold sample_row; cbn [status].
  destruct (py_le (NInt (ALERT_THRESHOLD config)) n) eqn:E.
  - repeat split; try tauto; try discriminate.
  - repeat split; try tauto; try discriminate.
Qed.

(** C3, at the payload [{"a": 10, "b": {"c": 20, "d": 80}}] when the call
    to the webhook raises an exception that is not a request error: the
    iteration raises out of [send_slack]; the spreadsheet sink is not
    called although the sheet handle is there, and no row is recorded. *)
Theorem samples_iteration_abandoned :
  let it := workflow_step (env_webhook_raising sample_payload OtherException)
              default_config true initial_api 0 empty_world in
  fst it = Raise OtherException
  /\ find_numbers sample_payload = [NInt 10; NInt 20; NInt 80]
  /\ filter is_sink_call (trace (snd it))
     = [EvSmtp (CNum (NInt 10)); EvPost (CNum (NInt 10))]
  /\ dashboard_data (snd it) = [].
Proof. vm_compute. repeat split. Qed.

(** The scenario of the specification, with sinks that deliver. *)
Example samples_iteration_scenario :
  let it := workflow_step (env_serving sample_payload) default_config true
              initial_api 0 empty_world in
  fst it = Ok (Continue (Some ENDPOINT_A))
  /\ map value (dashboard_data (snd it)) = [CNum (NInt 10)]
  /\ map max_value (dashboard_data (snd it)) = [CNum (NInt 80)]
  /\ map min_value (dashboard_data (snd it)) = [CNum (NInt 10)]
  /\ map avg_value (dashboard_data (snd it))
     = [CNum (NFloat (to_double (3667 # 100)))]
  /\ map status (dashboard_data (snd it)) = ["OK"]
  /\ filter is_sink_call (trace (snd it))
     = [EvSmtp (CNum (NInt 10)); EvPost (CNum (NInt 10));
        EvAppendRow (CNum (NInt 10)) 3].
Proof. vm_compute. repeat split. Qed.

(** ** A failed fetch *)



(** ** One row per fetch *)

(** C5, at a data source that answers 200 with the body [null]: the fetch
    is made and raises nothing, [fetch_data] returns the decoded [None],
    and the iteration stops without a row, as does the whole run.  A fetch
    that delivers samples is left without a row as well when the webhook
    call raises an exception other than a request error. *)
Theorem fetch_without_row :
  let env := env_serving JNull in
  let it := workflow_step env default_config true initial_api 0 empty_world in
  let it' := workflow_step (env_webhook_raising sample_payload OtherException)
               default_config true initial_api 0 empty_world in
  fst (fetch_data env initial_api empty_world) = Ok JNull
  /\ fst it = Ok Stop
  /\ trace (snd it) = [EvGet initial_api; EvLog INFO]
  /\ dashboard_data (snd it) = []
  /\ option_map (fun res => dashboard_data (snd res))
       (start_workflow_once env default_config true empty_world)
     = Some []
  /\ filter (fun e => match e with EvGet _ => true | _ => false end)
       (trace (snd it'))
     = [EvGet initial_api]
  /\ dashboard_data (snd it') = [].
Proof. vm_compute. repeat split. Qed.

(** ** The depth bound *)

(** C6, with the bound [max(MAX_DEPTH, 1)]: a run started at depth 0
    returns once the fuel covers the depth bound, with the same result for
    any larger fuel; the depths at which [recursive_workflow] is entered
    count upwards from 0 and stay at or below [max(MAX_DEPTH, 1)]; at most
    [max(MAX_DEPTH, 1)] rows are appended, and exactly one when the first
    fetch fails. *)
Theorem run_bounded_by_max_depth (env : Environment) (config : Config)
  (gs_sheet : bool) (api_url : string) (w : World) (fuel : nat) :
  (run_fuel config <= fuel)%nat ->
  exists result w' rows evs,
    recursive_workflow env config gs_sheet fuel (Some api_url) 0 w
    = Some (result, w')
    /\ (forall fuel', (fuel <= fuel')%nat ->
        recursive_workflow env config gs_sheet fuel' (Some api_url) 0 w
        = Some (result, w'))
    /\ dashboard_data w' = dashboard_data w ++ rows
    /\ Z.of_nat (List.length rows) <= Z.max 1 (MAX_DEPTH config)
    /\ trace w' = trace w ++ evs
    /\ counts_from 0 (entered evs)
    /\ StronglySorted Z.le (entered evs)
    /\ Forall (fun d => d <= Z.max 1 (MAX_DEPTH config)) (entered evs)
    /\ (fetch_failure (session_get env (clock w) api_url) ->
        List.length rows = 1%nat).
Proof.
  unfold run_fuel. intros Hfuel.
  destruct (recursive_workflow_bounded env config gs_sheet fuel
              (Some api_url) 0 w)
    as (result & rows & evs & n & Hrun & Hrows & Hcount & Hall);
    [lia | lia | lia |].
  exists result, (advance w rows evs n), rows, evs.
  split; [exact Hrun|].
  split.
  { intros fuel' Hle.
    exact (recursive_workflow_fuel_le env config gs_sheet fuel fuel' Hle _ _ _ _ Hrun). }
  split; [reflexivity|]. split; [lia|].
  split; [reflexivity|]. split; [exact Hcount|].
  split; [exact (counts_from_sorted _ _ Hcount)|]. split; [exact Hall|].
  intros Hfail. destruct fuel as [|fuel]; [lia|].
  destruct (recursive_workflow_failed_fetch env config gs_sheet fuel api_url
              0 w Hfail) as (pre & _ & Hrun').
  rewrite Hrun in Hrun'. injection Hrun' as _ Hd _ _.
  apply app_inv_head in Hd. now subst rows.
Qed.

Lemma run_bounded_by_max_depth_witness :
  exists result w' rows evs,
    recursive_workflow (env_serving sample_payload) default_config true 6
      (Some initial_api) 0 empty_world
    = Some (result, w')
    /\ (forall fuel', (6 <= fuel')%nat ->
        recursive_workflow (env_serving sample_payload) default_config true
          fuel' (Some initial_api) 0 empty_world
        = Some (result, w'))
    /\ dashboard_data w' = dashboard_data empty_world ++ rows
    /\ Z.of_nat (List.length rows) <= Z.max 1 (MAX_DEPTH default_config)
    /\ trace w' = trace empty_world ++ evs
    /\ counts_from 0 (entered evs)
    /\ StronglySorted Z.le (entered evs)
    /\ Forall (fun d => d <= Z.max 1 (MAX_DEPTH default_config)) (entered evs)
    /\ (fetch_failure
          (session_get (env_serving sample_payload) (clock empty_world)
             initial_api) ->
        List.length rows = 1%nat).
Proof.
  apply (run_bounded_by_max_depth (env_serving sample_payload) default_config
           true initial_api empty_world 6).
  vm_compute. lia.
Defined.

(** With [MAX_DEPTH = 0] a run still fetches once: it appends one row, and
    [recursive_workflow] is entered at depth 1, above the bound. *)
Lemma max_depth_zero_counterexample :
  exists w',
    recursive_workflow (env_serving sample_payload) zero_depth_config
      true 2 (Some initial_api) 0 empty_world
    = Some (Ok tt, w')
    /\ MAX_DEPTH zero_depth_config < Z.of_nat (List.length (dashboard_data w'))
    /\ entered (trace w') = [0; 1]
    /\ Exists (fun d => MAX_DEPTH zero_depth_config < d) (entered (trace w')).
Proof.
  eexists. split; [lazy; reflexivity|].
  split; [reflexivity|]. split; [reflexivity|].
  apply Exists_cons_tl, Exists_cons_hd. reflexivity.
Qed.

(** The bound of the specification scenario: three rows for [MAX_DEPTH = 3]. *)
Example run_max_depth_three :
  option_map (fun res => (List.length (dashboard_data (snd res)),
                          entered (trace (snd res))))
    (recursive_workflow (env_serving sample_payload)
       {| MAX_DEPTH := 3; INTERVAL := 60; ALERT_THRESHOLD := 1000 |}
       true 4 (Some initial_api) 0 empty_world)
  = Some (3%nat, [0; 1; 2; 3]).
Proof. vm_compute. reflexivity. Qed.

(** ** An iteration without samples *)

(** When [fetch_data] returns a payload other than [None] and
    [find_numbers] finds no sample in it, the iteration appends one row
    with ["N/A"] for the value, the maximum, the minimum and the average
    and with status ["OK"]; no sink is called; [select_next_api] is called
    and answers [None]; the recursive call that follows returns without
    another fetch. *)
Lemma no_samples_iteration (env : Environment) (config : Config)
  (gs_sheet : bool) (fuel : nat) (api_url : string) (depth : Z) (w : World)
  (r : Response) (data : json) :
  session_get env (clock w) api_url = Ok r ->
  status_ok r = true ->
  json_body r = Ok data ->
  is_None data = false ->
  find_numbers data = [] ->
  exists w1 w' row evs,
    workflow_step env config gs_sheet api_url depth w
    = (Ok (Continue None), w1)
    /\ dashboard_data w1 = dashboard_data w ++ [row]
    /\ api row = api_url
    /\ value row = CStr "N/A"
    /\ max_value row = CStr "N/A"
    /\ min_value row = CStr "N/A"
    /\ avg_value row = CStr "N/A"
    /\ status row = "OK"
    /\ trace w1 = trace w ++ evs
    /\ filter is_sink_call evs = []
    /\ filter is_select_call evs = [EvSelect [] (depth + 1)]
    /\ select_next_api config [] (depth + 1) = Ok None
    /\ recursive_workflow env config gs_sheet (S (S fuel)) (Some api_url)
         depth w
       = Some (Ok tt, w')
    /\ dashboard_data w' = dashboard_data w ++ [row]
    /\ trace w'
       = trace w ++ EvEnter depth :: evs ++ [EvEnter (depth + 1); EvLog INFO].
Proof.
  intros Hget Hst Hbody Hnone Hnum.
  pose proof (step_no_samples env config gs_sheet api_url depth w r data
                Hget Hst Hbody Hnone Hnum) as Hstep.
  pose proof (step_no_samples env config gs_sheet api_url depth
                (advance w [] [EvEnter depth] 0) r data
                Hget Hst Hbody Hnone Hnum) as Hstep'.
  do 4 eexists. split; [exact Hstep|].
  cbn [advance dashboard_data trace empty_row api status value max_value
       min_value avg_value].
  do 8 (split; [reflexivity|]).
  split; [reflexivity|]. split; [reflexivity|].
  split; [apply select_next_api_no_samples|].
  rewrite recursive_workflow_unfold, Hstep', recursive_workflow_end,
    !advance_advance.
  split; [reflexivity|]. split; reflexivity.
Qed.

(** C7, at a data source that answers 200 with the body [null]: the fetch
    succeeds and [find_numbers] finds no sample in the payload, yet no row
    is appended and [select_next_api] is not called; the run ends there.
    [recursive_workflow] takes the decoded [None] for the [None] that
    [fetch_data] returns after a failure. *)
Theorem null_body_iteration :
  let env := env_serving JNull in
  let it := workflow_step env default_config true initial_api 0 empty_world in
  session_get env 0 initial_api = Ok (answer JNull)
  /\ status_ok (answer JNull) = true
  /\ json_body (answer JNull) = Ok JNull
  /\ find_numbers JNull = []
  /\ fst it = Ok Stop
  /\ dashboard_data (snd it) = []
  /\ filter is_select_call (trace (snd it)) = []
  /\ option_map
       (fun res => (fst res, dashboard_data (snd res), entered (trace (snd res))))
       (recursive_workflow env default_config true 2 (Some initial_api) 0
          empty_world)
     = Some (Ok tt, [], [0]).
Proof. vm_compute. repeat split. Qed.

(** ** The sinks *)

(** What holds of the sinks: [send_email] and [update_google_sheet] return
    whatever their transport does; without a sheet handle
    [update_google_sheet] changes nothing; [send_slack] returns when the
    webhook call succeeds or raises a request error. *)
Lemma sinks_that_return (env : Environment) (gs_sheet : bool) (v : cell)
  (w : World) :
  fst (send_email env v w) = Ok tt
  /\ fst (update_google_sheet env gs_sheet v w) = Ok tt
  /\ update_google_sheet env false v w = (Ok tt, w)
  /\ ((forall e, session_post env (clock w) v = Raise e ->
                 is_RequestException e = true) ->
      fst (send_slack env v w) = Ok tt).
Proof.
  rewrite send_email_returns, !update_google_sheet_returns.
  repeat split.
  intros H. now rewrite (send_slack_returns env v w H).
Qed.

(** A failing mail server or spreadsheet leaves the other two sinks called. *)
Example failing_mail_keeps_other_sinks :
  let env := {| session_get := fun _ _ => Ok (answer sample_payload);
                smtp_send := fun _ _ => Raise OtherException;
                session_post := fun _ _ => Raise RequestException;
                append_row := fun _ _ => Raise OtherException |} in
  let it := workflow_step env default_config true initial_api 0 empty_world in
  fst it = Ok (Continue (Some ENDPOINT_A))
  /\ filter is_sink_call (trace (snd it))
     = [EvSmtp (CNum (NInt 10)); EvPost (CNum (NInt 10));
        EvAppendRow (CNum (NInt 10)) 3]
  /\ List.length (dashboard_data (snd it)) = 1%nat.
Proof. vm_compute. repeat split. Qed.

(** C8, at a webhook call that raises an exception other than a request
    error: [send_slack] does not catch it, where [send_email] and
    [update_google_sheet] catch every exception; run in the order of
    [recursive_workflow], the three sinks end with that exception and
    [update_google_sheet] is never called. *)
Theorem send_slack_lets_exception_through :
  let env := env_webhook_raising sample_payload OtherException in
  let v := CNum (NInt 10) in
  let fanout := (send_email env v ;; send_slack env v ;;
                 update_google_sheet env true v)%wf empty_world in
  fst (send_slack env v empty_world) = Raise OtherException
  /\ fst fanout = Raise OtherException
  /\ filter is_sink_call (trace (snd fanout)) = [EvSmtp v; EvPost v].
Proof. vm_compute. repeat split. Qed.

(** ** Guards *)




(** * Further properties of the code *)

(** ** Extraction *)

Lemma flat_map_map {A B C : Type} (g : A -> B) (f : B -> list C) (l : list A) :
  flat_map f (map g l) = flat_map (fun x => f (g x)) l.
Proof.
  induction l as [|x l IH]; simpl; [reflexivity|]. now rewrite IH.
Qed.

(** X2: the keys of a mapping play no part: a mapping yields what the
    sequence of its values yields; and extraction distributes over the
    concatenation of sequences. *)
Theorem find_numbers_values_only (entries : list (string * json))
  (items1 items2 : list json) :
  find_numbers (JDict entries) = find_numbers (JList (map snd entries))
  /\ find_numbers (JList (items1 ++ items2))
     = find_numbers (JList items1) ++ find_numbers (JList items2).
Proof.
  rewrite !find_numbers_leaves. simpl. split.
  - now rewrite flat_map_map.
  - apply flat_map_app.
Qed.

(** ** Statistics of the samples *)

Lemma num_val_int (x : num) :
  is_int x = true -> num_val x = Fin (inject_Z (int_val x)).
Proof. destruct x; try discriminate; reflexivity. Qed.

Lemma int_range_53 :
  (- 2 ^ 1024 < inject_Z (- 2 ^ 53))%Q /\ (inject_Z (2 ^ 53) < 2 ^ 1024)%Q.
Proof. split; vm_compute; reflexivity. Qed.

(** X3: on a non-empty list [min] and [max] return samples; when no sample
    is NaN they bound every sample, the first one in particular; and on
    [int] samples of magnitude at most [2 ^ 53] the average returns and
    lies between the minimum and the maximum. *)
Theorem min_mean_max (n : num) (rest : list num) :
  exists mn mx,
    py_min (n :: rest) = Ok mn
    /\ py_max (n :: rest) = Ok mx
    /\ In mn (n :: rest) /\ In mx (n :: rest)
    /\ (nan_free (n :: rest) = true ->
        (forall x, In x (n :: rest) -> py_le mn x = true /\ py_le x mx = true)
        /\ py_le mn n = true /\ py_le n mx = true)
    /\ (forallb (int_within (2 ^ 53)) (n :: rest) = true ->
        exists avg, average (n :: rest) = Ok avg
                    /\ float_le (num_val mn) avg = true
                    /\ float_le avg (num_val mx) = true).
Proof.
  assert (Hne : n :: rest <> []) by discriminate.
  destruct (py_min_spec (n :: rest) Hne) as (mn & Hmn & Hmnin & Hmnle).
  destruct (py_max_spec (n :: rest) Hne) as (mx & Hmx & Hmxin & Hmxle).
  exists mn, mx. do 4 (split; [assumption|]).
  split.
  - intros Hfree. split; [|split].
    + intros x Hx. split; [now apply Hmnle|now apply Hmxle].
    + apply Hmnle; [assumption|now left].
    + apply Hmxle; [assumption|now left].
  - intros Hall.
    pose proof (int_within_is_int _ _ Hall) as Hint.
    pose proof (is_int_not_nan _ Hint) as Hfree.
    assert (Hin : forall x, In x (n :: rest) ->
                    is_int x = true /\ - 2 ^ 53 <= int_val x <= 2 ^ 53).
    { intros x Hx. rewrite forallb_forall in Hall.
      exact (int_within_spec _ _ (Hall x Hx)). }
    destruct (Hin mn Hmnin) as [Imn Bmn]. destruct (Hin mx Hmxin) as [Imx Bmx].
    destruct int_range_53 as [Blo Bhi].
    destruct (average_int_bounds (n :: rest) (int_val mn) (int_val mx) Hint Hne)
      as (q & Hq & Hq1 & Hq2).
    + intros x Hx. destruct (Hin x Hx) as [Ix _]. split.
      * apply py_le_int; [assumption..|]. now apply Hmnle.
      * apply py_le_int; [assumption..|]. now apply Hmxle.
    + apply round_nearest_int. lia.
    + apply round_nearest_int. lia.
    + eapply Qlt_le_trans; [exact Blo|]. rewrite <- Zle_Qle. lia.
    + eapply Qle_lt_trans; [|exact Bhi]. rewrite <- Zle_Qle. lia.
    + exists (Fin q). split; [exact Hq|].
      rewrite (num_val_int mn Imn), (num_val_int mx Imx). cbn [float_le].
      split; now apply Qle_bool_iff.
Qed.

Lemma min_mean_max_witness :
  exists mn mx avg,
    py_min [NInt 10; NInt 20; NInt 80] = Ok mn
    /\ py_max [NInt 10; NInt 20; NInt 80] = Ok mx
    /\ py_le mn (NInt 10) = true /\ py_le (NInt 10) mx = true
    /\ average [NInt 10; NInt 20; NInt 80] = Ok avg
    /\ float_le (num_val mn) avg = true
    /\ float_le avg (num_val mx) = true.
Proof.
  destruct (min_mean_max (NInt 10) [NInt 20; NInt 80])
    as (mn & mx & Hmn & Hmx & _ & _ & Hord & Havg).
  destruct (Hord eq_refl) as (_ & H1 & H2).
  destruct (Havg eq_refl) as (avg & H3 & H4 & H5).
  exists mn, mx, avg. repeat split; assumption.
Defined.

(** Beyond [2 ^ 53] an [int] is rounded by the division, and floats are
    rounded by the sum: the average of twice [2 ** 53 + 1] is below both,
    and the average of three times [0.1] is above all three. *)
Example average_outside_samples :
  let big := NInt (2 ^ 53 + 1) in
  let tenth := NFloat (to_double (1 # 10)) in
  (exists avg, average [big; big] = Ok avg /\ float_lt avg (num_val big) = true)
  /\ (exists avg, average [tenth; tenth; tenth] = Ok avg
                  /\ float_lt (num_val tenth) avg = true).
Proof.
  split; eexists; (split; [vm_compute; reflexivity|vm_compute; reflexivity]).
Qed.

(** [max] and [min] with a NaN: a NaN in first place stays, a later one is
    never taken. *)
Example max_min_nan :
  py_max [NFloat NaN; NInt 1] = Ok (NFloat NaN)
  /\ py_max [NInt 1; NFloat NaN] = Ok (NInt 1)
  /\ py_min [NFloat NaN; NInt 1] = Ok (NFloat NaN)
  /\ py_min [NInt 1; NFloat NaN] = Ok (NInt 1).
Proof. repeat split. Qed.

(** ** Endpoint selection *)

Lemma int_total_Permutation (l l' : list num) :
  Permutation l l' -> int_total l = int_total l'.
Proof.
  induction 1 as [|x l l' _ IH|x y l|l l' l'' _ IH1 _ IH2].
  - reflexivity.
  - cbn [int_total fold_right]. fold (int_total l) (int_total l'). now rewrite IH.
  - cbn [int_total fold_right]. fold (int_total l). lia.
  - now rewrite IH1.
Qed.

Lemma forallb_Permutation {A : Type} (p : A -> bool) (l l' : list A) :
  Permutation l l' -> forallb p l = true -> forallb p l' = true.
Proof.
  intros Hperm. rewrite !forallb_forall. intros H x Hx.
  apply H. now apply (Permutation_in x (Permutation_sym Hperm)).
Qed.

Lemma is_empty_Permutation {A : Type} (l l' : list A) :
  Permutation l l' -> is_empty l = is_empty l'.
Proof.
  intros Hperm. apply Permutation_length in Hperm.
  destruct l, l'; try discriminate; reflexivity.
Qed.

(** X4: on [int] samples the next endpoint does not depend on the order of
    the samples. *)
Theorem select_next_api_order_free (config : Config) (numbers numbers' : list num)
  (depth : Z) :
  forallb is_int numbers = true ->
  Permutation numbers numbers' ->
  select_next_api config numbers depth = select_next_api config numbers' depth.
Proof.
  intros Hall Hperm.
  pose proof (forallb_Permutation is_int _ _ Hperm Hall) as Hall'.
  assert (Havg : average numbers = average numbers').
  { unfold average, py_len.
    rewrite (py_sum_int numbers Hall), (py_sum_int numbers' Hall').
    now rewrite (int_total_Permutation _ _ Hperm), (Permutation_length Hperm). }
  unfold select_next_api.
  now rewrite Havg, (is_empty_Permutation _ _ Hperm).
Qed.

Lemma select_next_api_order_free_witness :
  select_next_api default_config [NInt 80; NInt 10; NInt 20] 1
  = select_next_api default_config [NInt 10; NInt 20; NInt 80] 1.
Proof.
  apply select_next_api_order_free; [reflexivity|].
  apply Permutation_cons_app with (l1 := [NInt 10; NInt 20]) (l2 := []).
  apply Permutation_refl.
Defined.

Lemma round_nearest_band_ends :
  (round_nearest (inject_Z 49) == inject_Z 49)%Q
  /\ (round_nearest (inject_Z 50) == inject_Z 50)%Q
  /\ (round_nearest (inject_Z 99) == inject_Z 99)%Q
  /\ (round_nearest (inject_Z 100) == inject_Z 100)%Q
  /\ (- 2 ^ 1024 < inject_Z 50)%Q /\ (- 2 ^ 1024 < inject_Z 100)%Q
  /\ (inject_Z 49 < 2 ^ 1024)%Q /\ (inject_Z 99 < 2 ^ 1024)%Q.
Proof. repeat split; vm_compute; reflexivity. Qed.

(** X5: an endpoint that [select_next_api] returns is one of the three
    registered endpoints, and it raises nothing but [OverflowError]; below
    [MAX_DEPTH], [int] samples of magnitude at most [2 ^ 1023] that are all
    below 50 select the first endpoint, samples that are all from 50 and
    below 100 the second, and samples that are all from 100 on the third. *)
Theorem select_next_api_range (config : Config) (numbers : list num)
  (depth : Z) :
  (forall url, select_next_api config numbers depth = Ok (Some url) ->
               In url registered_endpoints)
  /\ (forall e, select_next_api config numbers depth = Raise e ->
                e = OverflowError)
  /\ (depth < MAX_DEPTH config -> numbers <> [] ->
      forallb (int_within (2 ^ 1023)) numbers = true ->
      ((forall x, In x numbers -> int_val x < 50) ->
         select_next_api config numbers depth = Ok (Some ENDPOINT_A))
      /\ ((forall x, In x numbers -> 50 <= int_val x < 100) ->
         select_next_api config numbers depth = Ok (Some ENDPOINT_B))
      /\ ((forall x, In x numbers -> 100 <= int_val x) ->
         select_next_api config numbers depth = Ok (Some ENDPOINT_C))).
Proof.
  split; [|split].
  - intros url. apply select_next_api_registered.
  - intros e H. now destruct (select_next_api_raises _ _ _ _ H).
  - intros Hd Hne Hall.
    pose proof (int_within_is_int _ _ Hall) as Hint.
    assert (Hin : forall x, In x numbers ->
                    - 2 ^ 1023 <= int_val x <= 2 ^ 1023).
    { intros x Hx. rewrite forallb_forall in Hall.
      exact (proj2 (int_within_spec _ _ (Hall x Hx))). }
    destruct round_nearest_range as (Fhi & Flo & Blo & Bhi).
    destruct round_nearest_band_ends
      as (F49 & F50 & F99 & F100 & B50 & B100 & B49 & B99).
    repeat split.
    + intros Hb.
      destruct (average_int_bounds numbers (- 2 ^ 1023) 49 Hint Hne)
        as (q & Hq & _ & Hq2); try assumption.
      { intros x Hx. specialize (Hb x Hx). specialize (Hin x Hx). lia. }
      rewrite (select_next_api_average config numbers depth (Fin q) Hd Hne Hq).
      unfold endpoint_of. cbn [float_lt].
      assert (E : Qltb q 50 = true).
      { apply Qltb_lt. eapply Qle_lt_trans; [exact Hq2|]. reflexivity. }
      now rewrite E.
    + intros Hb.
      destruct (average_int_bounds numbers 50 99 Hint Hne)
        as (q & Hq & Hq1 & Hq2); try assumption.
      { intros x Hx. specialize (Hb x Hx). lia. }
      rewrite (select_next_api_average config numbers depth (Fin q) Hd Hne Hq).
      unfold endpoint_of. cbn [float_lt].
      assert (E1 : Qltb q 50 = false) by (apply Qltb_ge; exact Hq1).
      assert (E2 : Qltb q 100 = true).
      { apply Qltb_lt. eapply Qle_lt_trans; [exact Hq2|]. reflexivity. }
      now rewrite E1, E2.
    + intros Hb.
      destruct (average_int_bounds numbers 100 (2 ^ 1023) Hint Hne)
        as (q & Hq & Hq1 & _); try assumption.
      { intros x Hx. specialize (Hb x Hx). specialize (Hin x Hx). lia. }
      rewrite (select_next_api_average config numbers depth (Fin q) Hd Hne Hq).
      unfold endpoint_of. cbn [float_lt].
      assert (E1 : Qltb q 50 = false).
      { apply Qltb_ge. eapply Qle_trans; [|exact Hq1]. discriminate. }
      assert (E2 : Qltb q 100 = false) by (apply Qltb_ge; exact Hq1).
      now rewrite E1, E2.
Qed.

Lemma select_next_api_range_witness :
  select_next_api default_config [NInt 120; NInt 2001] 4
  = Ok (Some ENDPOINT_C).
Proof.
  apply (proj2 (proj2 (select_next_api_range default_config
                         [NInt 120; NInt 2001] 4))).
  - simpl. lia.
  - discriminate.
  - vm_compute. reflexivity.
  - intros x [<-|[<-|[]]]; simpl; lia.
Defined.

(** ** The fetch *)

(** X6: [fetch_data] never lets a request error through; when the fetch
    fails with a request error it returns [None] and has appended the error
    row, and otherwise it appends nothing and a payload it returns is the
    decoded body. *)
Theorem fetch_data_outcomes (env : Environment) (api_url : string) (w : World) :
  let res := fetch_data env api_url w in
  (forall e, fst res = Raise e -> is_RequestException e = false)
  /\ (fetch_failure (session_get env (clock w) api_url) ->
      fst res = Ok JNull
      /\ dashboard_data (snd res)
         = dashboard_data w ++ [error_row (S (clock w)) api_url])
  /\ (~ fetch_failure (session_get env (clock w) api_url) ->
      dashboard_data (snd res) = dashboard_data w
      /\ forall data, fst res = Ok data ->
           exists r, session_get env (clock w) api_url = Ok r
                     /\ status_ok r = true /\ json_body r = Ok data).
Proof.
  cbv zeta.
  destruct (fetch_outcome_cases (session_get env (clock w) api_url))
    as [Hfail|[(r & data & Hget & Hst & Hbody)|(e & He & Hesc)]].
  - destruct (fetch_data_failure env api_url w Hfail) as (pre & _ & ->).
    cbn [fst snd advance dashboard_data].
    split; [discriminate|]. split; [easy|]. intros Hn. now destruct Hn.
  - rewrite (fetch_data_success env api_url w r data Hget Hst Hbody).
    cbn [fst snd advance dashboard_data]. rewrite app_nil_r.
    split; [discriminate|]. split.
    + intros Hfail. exfalso.
      destruct Hfail as [H|r' H Hst'|r' H Hst' Hbody']; congruence.
    + intros _. split; [reflexivity|]. intros data' [= <-]. now exists r.
  - destruct (fetch_data_escapes env api_url w e He) as [H1 H2].
    assert (Hres : exists evs, fetch_data env api_url w
                               = (Raise e, advance w [] evs 1)).
    { destruct Hesc as [Hget|(r & Hget & Hst & Hbody)].
      - rewrite (H1 Hget). now eexists.
      - rewrite (H2 r Hget Hst Hbody). now eexists. }
    destruct Hres as (evs & ->).
    cbn [fst snd advance dashboard_data]. rewrite app_nil_r.
    split; [intros e' [= <-]; exact He|]. split.
    + intros Hfail. exfalso.
      destruct Hesc as [Hget|(r & Hget & Hst & Hbody)];
        destruct Hfail as [H|r' H Hst'|r' H Hst' Hbody']; try congruence.
      * rewrite H in Hget. injection Hget as Heq. subst e. discriminate He.
      * rewrite H in Hget. injection Hget as Heq. subst r'.
        rewrite Hbody in Hbody'. injection Hbody' as Heq. subst e.
        discriminate He.
    + intros _. split; [reflexivity|]. intros data [=].
Qed.

Lemma fetch_data_outcomes_witness :
  fst (fetch_data env_timeout initial_api empty_world) = Ok JNull
  /\ dashboard_data (snd (fetch_data env_timeout initial_api empty_world))
     = dashboard_data empty_world
       ++ [error_row (S (clock empty_world)) initial_api].
Proof.
  apply (proj1 (proj2 (fetch_data_outcomes env_timeout initial_api
                         empty_world))).
  apply connection_failed. reflexivity.
Defined.

(** ** The sinks and the sheet handle *)

(** X7: [send_email] and [update_google_sheet] return whatever their
    transport does; without a sheet handle [update_google_sheet] changes
    nothing; [send_slack] returns when the webhook call succeeds or raises
    a request error; and no sink touches [dashboard_data]. *)
Theorem sinks_contained (env : Environment) (gs_sheet : bool) (v : cell)
  (w : World) :
  fst (send_email env v w) = Ok tt
  /\ fst (update_google_sheet env gs_sheet v w) = Ok tt
  /\ update_google_sheet env false v w = (Ok tt, w)
  /\ ((forall e, session_post env (clock w) v = Raise e ->
                 is_RequestException e = true) ->
      fst (send_slack env v w) = Ok tt)
  /\ dashboard_data (snd (send_email env v w)) = dashboard_data w
  /\ dashboard_data (snd (send_slack env v w)) = dashboard_data w
  /\ dashboard_data (snd (update_google_sheet env gs_sheet v w))
     = dashboard_data w.
Proof.
  rewrite send_email_returns, !update_google_sheet_returns.
  cbn [fst snd advance dashboard_data]. rewrite app_nil_r.
  do 3 (split; [reflexivity|]).
  split; [intros H; now rewrite (send_slack_returns env v w H)|].
  split; [reflexivity|]. split.
  - destruct (session_post env (clock w) v) as [[]|e] eqn:Hpost.
    + rewrite send_slack_returns by (intros e; congruence).
      cbn [snd advance dashboard_data]. now rewrite app_nil_r.
    + destruct (is_RequestException e) eqn:He.
      * rewrite send_slack_returns by (intros e'; congruence).
        cbn [snd advance dashboard_data]. now rewrite app_nil_r.
      * rewrite (send_slack_escapes env v w e Hpost He).
        cbn [snd advance dashboard_data]. now rewrite app_nil_r.
  - destruct gs_sheet; [|reflexivity].
    cbn [advance dashboard_data]. now rewrite app_nil_r.
Qed.

Lemma sinks_contained_witness :
  fst (send_slack (env_webhook_raising sample_payload RequestException)
         (CNum (NInt 10)) empty_world) = Ok tt.
Proof.
  apply (proj1 (proj2 (proj2 (proj2
           (sinks_contained
              (env_webhook_raising sample_payload RequestException) true
              (CNum (NInt 10)) empty_world))))).
  intros e [= <-]. reflexivity.
Defined.

(** X8: [_setup_google_sheet] never raises, appends no row, and returns the
    sheet exactly when the authorisation went through; after a failed
    authorisation a call of [update_google_sheet] does nothing: the only
    trace left is the error logged at startup. *)
Theorem setup_failure_disables_sheet (env : Environment)
  (authorize : outcome unit) (v : cell) (w : World) :
  (exists gs w0,
      setup_google_sheet authorize w = (Ok gs, w0)
      /\ dashboard_data w0 = dashboard_data w
      /\ (gs = true <-> authorize = Ok tt))
  /\ (forall e,
        (gs <- setup_google_sheet (Raise e) ;; update_google_sheet env gs v) w
        = (Ok tt, advance w [] [EvLog ERROR] 0)).
Proof.
  split.
  - unfold setup_google_sheet, try_except, logging, bind, lift, ret, emit.
    destruct authorize as [[]|e]; cbn.
    + do 2 eexists. split; [reflexivity|]. now repeat split.
    + do 2 eexists. split; [reflexivity|]. cbn.
      split; [reflexivity|]. split; discriminate.
  - intros e.
    unfold setup_google_sheet, update_google_sheet, try_except, logging,
      bind, lift, ret, emit. cbn. f_equal. world_eq.
Qed.

(** ** Iterations and runs *)

Lemma fetched_app (t1 t2 : list event) :
  fetched (t1 ++ t2) = fetched t1 ++ fetched t2.
Proof.
  induction t1 as [|e t1 IH]; simpl; [reflexivity|].
  destruct e; simpl; now rewrite IH.
Qed.

(** What an iteration does to the rows and which URL it fetches, whatever
    the collaborators do. *)
Lemma step_effects (env : Environment) (config : Config) (gs_sheet : bool)
  (api_url : string) (depth : Z) (w : World) :
  exists result rows evs n,
    workflow_step env config gs_sheet api_url depth w
    = (result, advance w rows evs n)
    /\ (List.length rows <= 1)%nat
    /\ fetched evs = [api_url]
    /\ entered evs = []
    /\ (forall next, result = Ok (Continue next) ->
          List.length rows = 1%nat
          /\ forall url, next = Some url ->
               In url registered_endpoints /\ depth + 1 < MAX_DEPTH config)
    /\ (forall e, result = Raise e -> rows = []).
Proof.
  destruct (fetch_outcome_cases (session_get env (clock w) api_url))
    as [Hfail|[(r & data & Hget & Hst & Hbody)|(e & He & Hesc)]].
  - destruct (step_fetch_failure env config gs_sheet api_url depth w Hfail)
      as (pre & Hpre & ->).
    do 4 eexists. split; [reflexivity|].
    split; [simpl; lia|].
    split; [destruct Hpre as [-> | ->]; reflexivity|].
    split; [destruct Hpre as [-> | ->]; reflexivity|].
    split; discriminate.
  - destruct (is_None data) eqn:Hnone.
    { destruct data; try discriminate.
      rewrite (step_null_body env config gs_sheet api_url depth w r Hget Hst Hbody).
      do 4 eexists. split; [reflexivity|].
      split; [simpl; lia|]. do 2 (split; [reflexivity|]). split; discriminate. }
    destruct (find_numbers data) as [|n rest] eqn:Hnum.
    { rewrite (step_no_samples env config gs_sheet api_url depth w r data
                 Hget Hst Hbody Hnone Hnum).
      do 4 eexists. split; [reflexivity|].
      split; [simpl; lia|]. do 2 (split; [reflexivity|]).
      split; [|discriminate].
      intros next [= <-]. split; [reflexivity|]. discriminate. }
    assert (Hcases :
      (forall e, session_post env (S (S (clock w))) (CNum n) = Raise e ->
                 is_RequestException e = true)
      \/ exists e, session_post env (S (S (clock w))) (CNum n) = Raise e
                   /\ is_RequestException e = false).
    { destruct (session_post env (S (S (clock w))) (CNum n)) as [[]|e] eqn:Hpost.
      - left. intros e He. discriminate.
      - destruct (is_RequestException e) eqn:He.
        + left. intros e' [= <-]. exact He.
        + right. now exists e. }
    destruct (average (n :: rest)) as [avg|e] eqn:Havg.
    2:{ rewrite (step_average_raises env config gs_sheet api_url depth w r data
                   n rest e Hget Hst Hbody Hnum Havg).
        do 4 eexists. split; [reflexivity|].
        split; [simpl; lia|]. do 2 (split; [reflexivity|]).
        split; [discriminate|reflexivity]. }
    destruct Hcases as [Hpost|(e & Hpost & He)].
    + destruct (step_samples env config gs_sheet api_url depth w r data n rest
                  avg Hget Hst Hbody Hnum Havg Hpost)
        as (mx & mn & next & evs & ticks & _ & _ & Hnext & -> & _ & _
            & Hent & _ & Hfetched).
      do 4 eexists. split; [reflexivity|].
      split; [simpl; lia|]. split; [exact Hfetched|]. split; [exact Hent|].
      split; [|discriminate].
      intros next' [= <-]. split; [reflexivity|].
      intros url ->. split.
      * exact (select_next_api_registered _ _ _ _ Hnext).
      * now apply select_next_api_Some in Hnext.
    + rewrite (step_slack_escapes env config gs_sheet api_url depth w r data
                 n rest avg e Hget Hst Hbody Hnum Havg Hpost He).
      do 4 eexists. split; [reflexivity|].
      split; [simpl; lia|]. do 2 (split; [reflexivity|]).
      split; [discriminate|reflexivity].
  - destruct (step_fetch_escapes env config gs_sheet api_url depth w e He)
      as [H1 H2].
    destruct Hesc as [Hget|(r & Hget & Hst & Hbody)].
    + rewrite (H1 Hget). do 4 eexists. split; [reflexivity|].
      split; [simpl; lia|]. do 2 (split; [reflexivity|]).
      split; [discriminate|reflexivity].
    + rewrite (H2 r Hget Hst Hbody). do 4 eexists. split; [reflexivity|].
      split; [simpl; lia|]. do 2 (split; [reflexivity|]).
      split; [discriminate|reflexivity].
Qed.

(** The fetches of a call: the URL it is given first, registered endpoints
    after it; no more rows than fetches; and no more fetches than depths
    left. *)
Lemma recursive_workflow_fetches (env : Environment) (config : Config)
  (gs_sheet : bool) (fuel : nat) :
  forall (api_url : option string) (depth : Z) (w : World) res w',
    recursive_workflow env config gs_sheet fuel api_url depth w
    = Some (res, w') ->
    exists rows evs n,
      w' = advance w rows evs n
      /\ (List.length rows <= List.length (fetched evs))%nat
      /\ match api_url with
         | None => fetched evs = []
         | Some url =>
             exists later, fetched evs = url :: later
                           /\ Forall (fun u => In u registered_endpoints) later
         end
      /\ (depth <= Z.max 1 (MAX_DEPTH config) ->
          (api_url <> None -> depth < Z.max 1 (MAX_DEPTH config)) ->
          Z.of_nat (List.length (fetched evs))
          <= Z.max 1 (MAX_DEPTH config) - depth).
Proof.
  induction fuel as [|fuel IH]; intros api_url depth w res w' Hrun;
    [discriminate|].
  assert (Hskip : forall t, fetched (EvEnter depth :: t) = fetched t)
    by reflexivity.
  destruct api_url as [url|].
  - rewrite recursive_workflow_unfold in Hrun.
    destruct (step_effects env config gs_sheet url depth
                (advance w [] [EvEnter depth] 0))
      as (result & rows & evs & n & Hstep & Hrows & Hfetched & _ & Hnext & _).
    rewrite Hstep, advance_advance in Hrun. cbn [app] in Hrun.
    destruct result as [[|next]|e].
    + injection Hrun as _ <-. do 3 eexists. split; [reflexivity|].
      rewrite Hskip, Hfetched. cbn [List.length].
      split; [lia|]. split; [exists []; split; [reflexivity|constructor]|].
      intros _ Hlt. specialize (Hlt ltac:(discriminate)). lia.
    + destruct (Hnext next eq_refl) as [Hone Hreg].
      destruct (IH next (depth + 1) _ res w' Hrun)
        as (rows' & evs' & n' & -> & Hrows' & Hlater & Hbound).
      rewrite advance_advance. do 3 eexists. split; [reflexivity|].
      rewrite fetched_app, Hskip, Hfetched. cbn [app List.length].
      rewrite length_app. split; [lia|]. split.
      * exists (fetched evs'). split; [reflexivity|].
        destruct next as [u|].
        -- destruct Hlater as (later & -> & Hall).
           constructor; [exact (proj1 (Hreg u eq_refl))|assumption].
        -- rewrite Hlater. constructor.
      * intros Hle Hlt. specialize (Hlt ltac:(discriminate)).
        assert (Hb : Z.of_nat (List.length (fetched evs'))
                     <= Z.max 1 (MAX_DEPTH config) - (depth + 1)).
        { apply Hbound; [lia|]. intros Hsome.
          destruct next as [u|]; [|congruence].
          pose proof (proj2 (Hreg u eq_refl)). lia. }
        lia.
    + injection Hrun as _ <-. do 3 eexists. split; [reflexivity|].
      rewrite Hskip, Hfetched. cbn [List.length].
      split; [lia|]. split; [exists []; split; [reflexivity|constructor]|].
      intros _ Hlt. specialize (Hlt ltac:(discriminate)). lia.
  - rewrite recursive_workflow_end in Hrun. injection Hrun as _ <-.
    do 3 eexists. split; [reflexivity|]. simpl.
    split; [lia|]. split; [reflexivity|]. intros; lia.
Qed.

(** In an environment that raises request errors only and serves [int]
    samples within the range of a double, a call that returns returns
    normally. *)
Lemma recursive_workflow_no_exception (env : Environment) (config : Config)
  (gs_sheet : bool) (fuel : nat) :
  request_errors_only env ->
  int_payloads env ->
  forall (api_url : option string) (depth : Z) (w : World) res w',
    recursive_workflow env config gs_sheet fuel api_url depth w
    = Some (res, w') ->
    res = Ok tt.
Proof.
  intros (Hget & Hbody & Hpost) Hint.
  induction fuel as [|fuel IH]; intros api_url depth w res w' Hrun;
    [discriminate|].
  destruct api_url as [url|].
  - rewrite recursive_workflow_unfold in Hrun.
    destruct (step_frame env config gs_sheet url depth
                (advance w [] [EvEnter depth] 0))
      as (result & rows & evs & n & Hstep & _ & _ & _ & Hraise).
    rewrite Hstep in Hrun.
    destruct result as [[|next]|e].
    + now injection Hrun as <- _.
    + exact (IH _ _ _ _ _ Hrun).
    + exfalso.
      destruct (Hraise e eq_refl)
        as [[He [H|[(r & H1 & H2)|(v & H)]]]|(-> & r & data & H1 & H2 & H3)].
      * rewrite (Hget _ _ _ H) in He. discriminate.
      * rewrite (Hbody _ _ _ _ H1 H2) in He. discriminate.
      * rewrite (Hpost _ _ _ H) in He. discriminate.
      * pose proof (Hint _ _ _ _ H1 H2) as Hall.
        destruct (find_numbers data) as [|x l]; [discriminate|].
        destruct (average_moderate (x :: l) Hall) as (q & Hq); [discriminate|].
        congruence.
  - rewrite recursive_workflow_end in Hrun. now injection Hrun as <- _.
Qed.

(** X10: whatever the collaborators do, an iteration makes exactly one
    fetch, of the URL it is given, keeps the rows that were there and
    appends at most one; it appends exactly one when it goes on to the
    selection of the next endpoint and none when it ends in an exception. *)
Theorem iteration_one_fetch_one_row (env : Environment) (config : Config)
  (gs_sheet : bool) (api_url : string) (depth : Z) (w : World) :
  let it := workflow_step env config gs_sheet api_url depth w in
  exists rows evs,
    dashboard_data (snd it) = dashboard_data w ++ rows
    /\ trace (snd it) = trace w ++ evs
    /\ (List.length rows <= 1)%nat
    /\ fetched evs = [api_url]
    /\ (forall next, fst it = Ok (Continue next) -> List.length rows = 1%nat)
    /\ (forall e, fst it = Raise e -> rows = []).
Proof.
  cbv zeta.
  destruct (step_effects env config gs_sheet api_url depth w)
    as (result & rows & evs & n & -> & Hrows & Hfetched & _ & Hnext & Hraise).
  exists rows, evs. cbn [fst snd advance dashboard_data trace].
  do 4 (split; [first [reflexivity | assumption]|]).
  split.
  - intros next ->. exact (proj1 (Hnext next eq_refl)).
  - intros e ->. exact (Hraise e eq_refl).
Qed.

(** X11: a run started at depth 0 fetches its seed URL first and after it
    registered endpoints only; it makes at most [max(MAX_DEPTH, 1)] fetches
    and appends no more rows than it makes fetches. *)
Theorem run_fetches_registered (env : Environment) (config : Config)
  (gs_sheet : bool) (api_url : string) (w : World) (fuel : nat) :
  (run_fuel config <= fuel)%nat ->
  exists result w' rows evs later,
    recursive_workflow env config gs_sheet fuel (Some api_url) 0 w
    = Some (result, w')
    /\ dashboard_data w' = dashboard_data w ++ rows
    /\ trace w' = trace w ++ evs
    /\ fetched evs = api_url :: later
    /\ Forall (fun u => In u registered_endpoints) later
    /\ (List.length rows <= List.length (fetched evs))%nat
    /\ Z.of_nat (List.length (fetched evs)) <= Z.max 1 (MAX_DEPTH config).
Proof.
  unfold run_fuel. intros Hfuel.
  destruct (recursive_workflow_bounded env config gs_sheet fuel
              (Some api_url) 0 w)
    as (result & rows0 & evs0 & n0 & Hrun & _); [lia | lia | lia |].
  destruct (recursive_workflow_fetches env config gs_sheet fuel
              (Some api_url) 0 w result _ Hrun)
    as (rows & evs & n & Hw & Hrows & (later & Hfetched & Hall) & Hbound).
  exists result, (advance w rows evs n), rows, evs, later.
  split; [now rewrite Hrun, Hw|].
  do 2 (split; [reflexivity|]).
  do 3 (split; [assumption|]).
  assert (H : Z.of_nat (List.length (fetched evs))
              <= Z.max 1 (MAX_DEPTH config) - 0)
    by (apply Hbound; [lia|intros _; lia]).
  lia.
Qed.

Lemma run_fetches_registered_witness :
  exists result w' rows evs later,
    recursive_workflow (env_serving sample_payload) default_config true 6
      (Some initial_api) 0 empty_world
    = Some (result, w')
    /\ dashboard_data w' = dashboard_data empty_world ++ rows
    /\ trace w' = trace empty_world ++ evs
    /\ fetched evs = initial_api :: later
    /\ Forall (fun u => In u registered_endpoints) later
    /\ (List.length rows <= List.length (fetched evs))%nat
    /\ Z.of_nat (List.length (fetched evs))
       <= Z.max 1 (MAX_DEPTH default_config).
Proof.
  apply (run_fetches_registered (env_serving sample_payload) default_config
           true initial_api empty_world 6).
  vm_compute. lia.
Defined.

Lemma env_serving_request_errors_only (data : json) :
  request_errors_only (env_serving data).
Proof.
  repeat split.
  - intros t url e H. discriminate.
  - intros t url r e H Hbody. injection H as <-. discriminate.
  - intros t v e H. discriminate.
Defined.

Lemma env_serving_int_payloads (data : json) :
  forallb (int_within (2 ^ 1023)) (find_numbers data) = true ->
  int_payloads (env_serving data).
Proof.
  intros Hall t url r data' H Hbody. injection H as <-.
  injection Hbody as <-. exact Hall.
Defined.

(** X12: when the data source and the webhook raise request errors only
    and the payloads hold [int] samples of magnitude at most [2 ^ 1023],
    a run returns normally, whatever the mail server and the spreadsheet
    do. *)
Theorem run_returns_normally (env : Environment) (config : Config)
  (gs_sheet : bool) (api_url : string) (w : World) (fuel : nat) :
  request_errors_only env ->
  int_payloads env ->
  (run_fuel config <= fuel)%nat ->
  exists w',
    recursive_workflow env config gs_sheet fuel (Some api_url) 0 w
    = Some (Ok tt, w').
Proof.
  unfold run_fuel. intros Henv Hint Hfuel.
  destruct (recursive_workflow_bounded env config gs_sheet fuel
              (Some api_url) 0 w)
    as (result & rows & evs & n & Hrun & _); [lia | lia | lia |].
  pose proof (recursive_workflow_no_exception env config gs_sheet fuel Henv
                Hint _ _ _ _ _ Hrun) as Hres.
  subst result. eexists. exact Hrun.
Qed.

Lemma run_returns_normally_witness :
  exists w',
    recursive_workflow (env_serving sample_payload) default_config true 6
      (Some initial_api) 0 empty_world
    = Some (Ok tt, w').
Proof.
  apply (run_returns_normally (env_serving sample_payload) default_config
           true initial_api empty_world 6).
  - apply env_serving_request_errors_only.
  - apply env_serving_int_payloads. vm_compute. reflexivity.
  - vm_compute. lia.
Defined.

(** ** The dashboard read after a write *)

Lemma dashboard_firstn (w : World) :
  dashboard w = firstn 20 (rev (dashboard_data w)).
Proof.
  unfold dashboard, py_reversed.
  change (-20) with (- Z.of_nat 20).
  now rewrite py_slice_last, firstn_rev.
Qed.

(** X13: right after a row is appended it is the first row of the
    dashboard, followed by the first 19 rows the dashboard showed before. *)
Theorem dashboard_after_append (row : WorkflowRecord) (w : World) :
  dashboard (snd (dashboard_append row w)) = row :: firstn 19 (dashboard w).
Proof.
  rewrite !dashboard_firstn, firstn_firstn.
  cbn [dashboard_append snd dashboard_data].
  rewrite rev_app_distr. reflexivity.
Qed.



(** ** The scheduler loop *)

Lemma time_sleep_returns (secs : Z) (w : World) :
  0 <= secs <= 9223372036 ->
  time_sleep secs w = (Ok tt, advance w [] [] 1).
Proof.
  intros H. unfold time_sleep.
  assert (E1 : (secs <? -9223372036) = false) by (apply Z.ltb_ge; lia).
  assert (E2 : (9223372036 <? secs) = false) by (apply Z.ltb_ge; lia).
  assert (E3 : (secs <? 0) = false) by (apply Z.ltb_ge; lia).
  rewrite E1, E2, E3. cbn [orb].
  now rewrite (bind_ok _ (tick_advance w)).
Qed.

Lemma time_sleep_negative (secs : Z) (w : World) :
  -9223372036 <= secs < 0 -> time_sleep secs w = (Raise ValueError, w).
Proof.
  intros H. unfold time_sleep.
  assert (E1 : (secs <? -9223372036) = false) by (apply Z.ltb_ge; lia).
  assert (E2 : (9223372036 <? secs) = false) by (apply Z.ltb_ge; lia).
  assert (E3 : (secs <? 0) = true) by (apply Z.ltb_lt; lia).
  now rewrite E1, E2, E3.
Qed.

Lemma advance_nothing (w : World) : advance w [] [] 0 = w.
Proof. destruct w. unfold advance; simpl. now rewrite !app_nil_r. Qed.

Lemma time_sleep_frame (secs : Z) (w : World) :
  exists result n, time_sleep secs w = (result, advance w [] [] n).
Proof.
  unfold time_sleep.
  destruct ((secs <? -9223372036) || (9223372036 <? secs)).
  - exists (Raise OverflowError), 0%nat. unfold lift. now rewrite advance_nothing.
  - destruct (secs <? 0).
    + exists (Raise ValueError), 0%nat. unfold lift. now rewrite advance_nothing.
    + exists (Ok tt), 1%nat. now rewrite (bind_ok _ (tick_advance w)).
Qed.

Lemma start_workflow_once_bounded (env : Environment) (config : Config)
  (gs_sheet : bool) (w : World) :
  exists result rows evs n,
    start_workflow_once env config gs_sheet w
    = Some (result, advance w rows evs n)
    /\ Z.of_nat (List.length rows) <= Z.max 1 (MAX_DEPTH config)
    /\ (request_errors_only env -> int_payloads env -> result = Ok tt).
Proof.
  unfold start_workflow_once, logging. rewrite emit_advance.
  destruct (recursive_workflow_bounded env config gs_sheet (run_fuel config)
              (Some initial_api) 0 (advance w [] [EvLog INFO] 0))
    as (result & rows & evs & n & Hrun & Hrows & _);
    [lia | lia | unfold run_fuel; lia |].
  rewrite Hrun, advance_advance. do 4 eexists.
  split; [reflexivity|]. split; [cbn [app]; lia|].
  intros Henv Hint.
  exact (recursive_workflow_no_exception env config gs_sheet _ Henv Hint
           _ _ _ _ _ Hrun).
Qed.

Lemma start_workflow_bounded (env : Environment) (config : Config)
  (gs_sheet : bool) (passes : nat) :
  forall w,
  exists result rows evs n,
    start_workflow env config gs_sheet passes w
    = Some (result, advance w rows evs n)
    /\ Z.of_nat (List.length rows)
       <= Z.of_nat passes * Z.max 1 (MAX_DEPTH config)
    /\ (request_errors_only env -> int_payloads env ->
        0 <= INTERVAL config <= 9223372036 -> result = Ok tt).
Proof.
  induction passes as [|passes IH]; intros w.
  - exists (Ok tt), [], [], 0%nat. split; [|split; [simpl; lia|reflexivity]].
    cbn [start_workflow]. now rewrite advance_nothing.
  - cbn [start_workflow].
    destruct (start_workflow_once_bounded env config gs_sheet w)
      as (result & rows & evs & n & -> & Hrows & Hok).
    destruct result as [[]|e].
    + unfold logging. rewrite (bind_ok _ (emit_advance _ _)).
      rewrite !advance_advance.
      match goal with
      | |- context [time_sleep ?secs ?w0] =>
          destruct (time_sleep_frame secs w0) as (slept & k & Hs)
      end.
      rewrite Hs, !advance_advance.
      destruct slept as [[]|e].
      * match goal with
        | |- context [start_workflow _ _ _ passes ?w0] =>
            destruct (IH w0)
              as (result' & rows' & evs' & n' & -> & Hrows' & Hok')
        end.
        rewrite advance_advance. do 4 eexists. split; [reflexivity|].
        split; [|exact Hok'].
        rewrite !length_app. cbn [List.length]. lia.
      * do 4 eexists. split; [reflexivity|].
        split; [rewrite !length_app; cbn [List.length]; lia|].
        intros _ _ Hsecs.
        rewrite time_sleep_returns in Hs by assumption. discriminate.
    + do 4 eexists. split; [reflexivity|]. split; [lia|].
      intros Henv Hint _. now apply Hok.
Qed.

(** X15: any number of passes of the scheduler loop returns; the rows that
    were there are kept and at most [max(MAX_DEPTH, 1)] rows are appended
    per pass; when the data source and the webhook raise request errors
    only, the payloads hold [int] samples of magnitude at most [2 ^ 1023]
    and [INTERVAL] is between 0 and 9223372036, no pass ends the loop with
    an exception; with a negative [INTERVAL] of no less than -9223372036
    the first pass ends the loop: [time.sleep] raises [ValueError]. *)
Theorem start_workflow_rows (env : Environment) (config : Config)
  (gs_sheet : bool) (passes : nat) (w : World) :
  (exists result w' rows,
      start_workflow env config gs_sheet passes w = Some (result, w')
      /\ dashboard_data w' = dashboard_data w ++ rows
      /\ Z.of_nat (List.length rows)
         <= Z.of_nat passes * Z.max 1 (MAX_DEPTH config))
  /\ (request_errors_only env -> int_payloads env ->
      0 <= INTERVAL config <= 9223372036 ->
      exists w', start_workflow env config gs_sheet passes w = Some (Ok tt, w'))
  /\ (request_errors_only env -> int_payloads env ->
      -9223372036 <= INTERVAL config < 0 ->
      exists w',
        start_workflow env config gs_sheet (S passes) w
        = Some (Raise ValueError, w')
        /\ option_map (fun res => dashboard_data (snd res))
             (start_workflow_once env config gs_sheet w)
           = Some (dashboard_data w')).
Proof.
  destruct (start_workflow_bounded env config gs_sheet passes w)
    as (result & rows & evs & n & Hrun & Hrows & Hok).
  split; [|split].
  - exists result, (advance w rows evs n), rows.
    split; [exact Hrun|]. split; [reflexivity|assumption].
  - intros Henv Hint Hsecs. rewrite (Hok Henv Hint Hsecs) in Hrun.
    eexists. exact Hrun.
  - intros Henv Hint Hsecs. cbn [start_workflow].
    destruct (start_workflow_once_bounded env config gs_sheet w)
      as (result1 & rows1 & evs1 & n1 & -> & _ & Hok1).
    rewrite (Hok1 Henv Hint).
    unfold logging. rewrite (bind_ok _ (emit_advance _ _)).
    rewrite time_sleep_negative by assumption.
    eexists. split; [reflexivity|].
    cbn [option_map snd advance dashboard_data]. now rewrite app_nil_r.
Qed.

Lemma start_workflow_rows_witness :
  (exists w',
      start_workflow (env_serving sample_payload) default_config true 2
        empty_world
      = Some (Ok tt, w'))
  /\ (exists w',
        start_workflow (env_serving sample_payload) hasty_config true 3
          empty_world
        = Some (Raise ValueError, w')
        /\ option_map (fun res => dashboard_data (snd res))
             (start_workflow_once (env_serving sample_payload) hasty_config
                true empty_world)
           = Some (dashboard_data w')).
Proof.
  split.
  - apply (proj1 (proj2 (start_workflow_rows (env_serving sample_payload)
                           default_config true 2 empty_world))).
    + apply env_serving_request_errors_only.
    + apply env_serving_int_payloads. vm_compute. reflexivity.
    + simpl. lia.
  - apply (proj2 (proj2 (start_workflow_rows (env_serving sample_payload)
                           hasty_config true 2 empty_world))).
    + apply env_serving_request_errors_only.
    + apply env_serving_int_payloads. vm_compute. reflexivity.
    + simpl. lia.
Defined.

(** An exception that leaves a pass ends the loop: with a webhook call
    that raises another exception, two passes make one fetch. *)
Example start_workflow_stopped :
  option_map (fun res => (fst res, fetched (trace (snd res))))
    (start_workflow (env_webhook_raising sample_payload OtherException)
       default_config true 2 empty_world)
  = Some (Raise OtherException, [initial_api]).
Proof. vm_compute. reflexivity. Qed.

(** ** Extraction and iterations, summed up *)

(** X1: [find_numbers] returns, in traversal order, exactly the leaves
    that are instances of [int] or [float], booleans among them; without
    the booleans these are the numeric leaves of the payload. *)
Theorem find_numbers_traversal (obj : json) :
  find_numbers obj = int_or_float_leaves obj
  /\ filter (fun n => negb (is_bool n)) (find_numbers obj) = numeric_leaves obj.
Proof.
  split; [apply find_numbers_leaves|].
  symmetry. apply numeric_leaves_filter.
Qed.

Lemma samples_iteration_witness :
  exists row next evs ticks mx mn,
    workflow_step (env_serving sample_payload) default_config true
      initial_api 0 empty_world
    = (Ok (Continue next), advance empty_world [row] evs ticks)
    /\ value row = CNum (NInt 10)
    /\ max_value row = CNum mx
    /\ py_max [NInt 10; NInt 20; NInt 80] = Ok mx
    /\ In mx [NInt 10; NInt 20; NInt 80]
    /\ min_value row = CNum mn
    /\ py_min [NInt 10; NInt 20; NInt 80] = Ok mn
    /\ In mn [NInt 10; NInt 20; NInt 80]
    /\ (nan_free [NInt 10; NInt 20; NInt 80] = true ->
        forall x, In x [NInt 10; NInt 20; NInt 80] ->
          py_le mn x = true /\ py_le x mx = true)
    /\ avg_value row
       = CNum (NFloat (py_round2 (to_double (110 # 3))))
    /\ filter is_sink_call evs
       = EvSmtp (CNum (NInt 10)) :: EvPost (CNum (NInt 10))
           :: (if true
               then [EvAppendRow (CNum (NInt 10)) (3 + clock empty_world)]
               else [])
    /\ (status row = "ALERTE"
        <-> py_le (NInt (ALERT_THRESHOLD default_config)) (NInt 10) = true)
    /\ (status row = "OK"
        <-> py_le (NInt (ALERT_THRESHOLD default_config)) (NInt 10) = false)
    /\ select_next_api default_config [NInt 10; NInt 20; NInt 80] (0 + 1)
       = Ok next.
Proof.
  apply (samples_iteration (env_serving sample_payload) default_config true
           initial_api 0 empty_world (answer sample_payload) sample_payload
           (NInt 10) [NInt 20; NInt 80] (to_double (110 # 3)));
    try reflexivity.
  intros e H. discriminate.
Defined.
